(** * dhl_sdk.crud: the CRUD client and the paginated [Result] iterator

    A shallow embedding of [src/dhl_sdk/crud.py].  Python objects that the
    module mutates (the [Result] instance, the caller's [query_params]
    dictionary) are threaded explicitly; the two injected collaborators
    (the HTTP [Client] and the entity [Constructor]) are parameters, and
    every call made to them is recorded in a trace. *)

From Stdlib Require Import ZArith String Ascii List Decimal DecimalString DecimalZ Lia.
From stdpp Require Import gmap strings list.

Local Open Scope Z_scope.
Local Open Scope string_scope.
Local Open Scope list_scope.

(** ** Python built-ins used by the module: [str] and [int] on integers *)

Module Py.

(** [str(n)] for an [int]: the canonical decimal numeral, ["-"] for
    negatives.  Strings are sequences of code points below 256.  (The cap
    on the number of digits that [str] and [int] convert, 4300 by default
    since Python 3.11, is not modelled.) *)
Definition str (n : Z) : string := NilZero.string_of_int (Z.to_int n).

(** White space as [int()] sees it on a [str] whose code points are below
    256: TAB to CR, SPACE, NEL and NBSP. *)
Definition isspace (c : ascii) : bool :=
  let n := nat_of_ascii c in
  ((9 <=? n) && (n <=? 13) || (n =? 32) || (n =? 133) || (n =? 160))%nat.

Fixpoint skip_space (s : string) : string :=
  match s with
  | String c s' => if isspace c then skip_space s' else s
  | EmptyString => s
  end.

Definition all_space (s : string) : bool :=
  match skip_space s with EmptyString => true | _ => false end.

(** The digits of a base-10 literal.  A single underscore may separate two
    digits; [prev] says whether the previous character was a digit.  Digits
    may be followed by white space only. *)
Fixpoint digits (prev : bool) (s : string) : option uint :=
  match s with
  | EmptyString => if prev then Some Nil else None
  | String c s' =>
      if Ascii.eqb c "_" then
        if prev then digits false s' else None
      else if isspace c then
        if prev && all_space s' then Some Nil else None
      else uint_of_char c (digits true s')
  end.

(** [int(s)] for a [str]: surrounding white space, an optional sign, then
    the digits.  [None] stands for [ValueError]. *)
Definition int (s : string) : option Z :=
  match skip_space s with
  | String c s' =>
      if Ascii.eqb c "+" then Z.of_uint <$> digits false s'
      else if Ascii.eqb c "-" then Z.opp <$> (Z.of_uint <$> digits false s')
      else Z.of_uint <$> digits false (String c s')
  | EmptyString => None
  end.

(** The characters that can occur in a string [int] accepts. *)
Definition is_digit (c : ascii) : bool :=
  ((48 <=? nat_of_ascii c) && (nat_of_ascii c <=? 57))%nat.

Definition numeric_char (c : ascii) : bool :=
  is_digit c || isspace c || Ascii.eqb c "_" || Ascii.eqb c "+" || Ascii.eqb c "-".

Fixpoint all_numeric (s : string) : bool :=
  match s with
  | EmptyString => true
  | String c s' => numeric_char c && all_numeric s'
  end.

End Py.

(** ** Data model *)

#[local] Set Warnings "-register-all".

(** Decoded JSON, as [response.json()] returns it. *)
Inductive json : Type :=
| JNull
| JBool (b : bool)
| JNum (n : Z)
| JStr (s : string)
| JArr (items : list json)
| JObj (fields : list (string * json)).

(** The exceptions that can leave the module.  [ClientError] is whatever
    the HTTP capability raises; [ConstructorError] whatever the entity
    factory raises. *)
Inductive exn : Type :=
| ClientError (code : Z)
| ConstructorError (msg : string)
| JSONDecodeError
| TypeError
| ValueError
| OverflowError
| IndexError
| StopIteration.

(** [requests.Response], as far as the module looks at it: the status, the
    headers (names in lower case) and the decoded body ([None] when
    [json()] raises). *)
Record Response : Type := mkResponse {
  status_code : Z;
  headers : gmap string string;
  body : option json
}.

(** Dictionaries of type [Dict[str, str]] are objects on the heap; a
    [query_params] argument is [None] or a reference to one of them. *)
Definition loc : Type := positive.

(** The calls made to the two collaborators, oldest first. *)
Inductive event : Type :=
| EvGet (path : string) (query_params : option (gmap string string))
| EvConstruct (kwargs : list (string * json)).

(** The world outside a [Result]: the dictionaries on the heap, the state
    of the remote service and the calls made so far. *)
Record world (S : Type) : Type := mkWorld {
  heap : gmap loc (gmap string string);
  remote : S;
  trace : list event
}.
Arguments mkWorld {S} _ _ _.
Arguments heap {S} _.
Arguments remote {S} _.
Arguments trace {S} _.

(** The [Client] protocol.  Only [get] is used by the module. *)
Record Client (S : Type) : Type := mkClient {
  client_get : string -> option (gmap string string) -> S -> (exn + Response) * S
}.
Arguments mkClient {S} _.
Arguments client_get {S} _ _ _ _.

Record CRUDClient (S T : Type) : Type := mkCRUDClient {
  _client : Client S;
  _base_url : string;
  _constructor : list (string * json) -> exn + T
}.
Arguments mkCRUDClient {S T} _ _ _.
Arguments _client {S T} _.
Arguments _base_url {S T} _.
Arguments _constructor {S T} _ _.

Record Result (S T : Type) : Type := mkResult {
  _data : list T;
  limit : Z;
  offset : Z;
  _total : option Z;
  _query_params : option loc;
  _requests : CRUDClient S T
}.
Arguments mkResult {S T} _ _ _ _ _ _.
Arguments _data {S T} _.
Arguments limit {S T} _.
Arguments offset {S T} _.
Arguments _total {S T} _.
Arguments _query_params {S T} _.
Arguments _requests {S T} _.

(** ** Computations that may raise and that mutate a state *)

Definition M (St A : Type) : Type := St -> (exn + A) * St.

Definition ret {St A} (a : A) : M St A := fun st => (inr a, st).
Definition raise {St A} (e : exn) : M St A := fun st => (inl e, st).
Definition bind {St A B} (m : M St A) (k : A -> M St B) : M St B :=
  fun st => match m st with
            | (inr a, st') => k a st'
            | (inl e, st') => (inl e, st')
            end.
Definition modify {St} (f : St -> St) : M St unit := fun st => (inr tt, f st).
Definition lift_result {St A} (r : exn + A) : M St A := fun st => (r, st).

(** A computation on the world, run from a method of an object [O]. *)
Definition on_world {O W A} (m : M W A) : M (O * W) A :=
  fun st => let '(r, w') := m st.2 in (r, (st.1, w')).
Definition self {O W} : M (O * W) O := fun st => (inr st.1, st).
Definition update_self {O W} (f : O -> O) : M (O * W) unit :=
  fun st => (inr tt, (f st.1, st.2)).

Declare Scope py_scope.
Delimit Scope py_scope with py.
Notation "'let*' p := m 'in' k" := (bind m (fun p => k))
  (at level 10, p pattern, m at level 100, k at level 200) : py_scope.
Notation "m ;;; k" := (bind m (fun _ => k))
  (at level 100, right associativity) : py_scope.

Definition log {S} (e : event) : M (world S) unit :=
  modify (fun w => mkWorld (heap w) (remote w) (trace w ++ [e])).

Fixpoint mapM {St A B} (f : A -> M St B) (l : list A) : M St (list B) :=
  match l with
  | [] => ret []
  | x :: l' => (let* y := f x in let* ys := mapM f l' in ret (y :: ys))%py
  end.

(** ** Calls to the collaborators *)

(** [client.get(path, query_params)]: the request is recorded, the service
    may change its state, and the call returns a response or raises. *)
Definition http_get {S} (c : Client S) (path : string)
    (query_params : option (gmap string string)) : M (world S) Response :=
  fun w =>
    let '(r, s') := client_get c path query_params (remote w) in
    (r, mkWorld (heap w) s' (trace w ++ [EvGet path query_params])).

(** [response.json()] *)
Definition Response_json {St} (response : Response) : M St json :=
  match body response with
  | Some j => ret j
  | None => raise JSONDecodeError
  end.

(** What a [for] loop (or a comprehension) sees when it iterates a decoded
    JSON value: the items of an array, the keys of an object, the
    characters of a string; other values are not iterable. *)
Fixpoint chars (s : string) : list json :=
  match s with
  | EmptyString => []
  | String c s' => JStr (String c EmptyString) :: chars s'
  end.

Definition iter_json {St} (j : json) : M St (list json) :=
  match j with
  | JArr items => ret items
  | JObj fields => ret (JStr <$> fields.*1)
  | JStr s => ret (chars s)
  | _ => raise TypeError
  end.

(** ** class CRUDClient *)

Module CRUDClient.
Section methods.
Context {S T : Type}.
Implicit Types self : CRUDClient S T.

(** The call of [self._constructor] with the keywords of [entity] and
    [client]: [entity] has to be a mapping, and may not itself carry a
    [client] key. *)
Definition construct self (entity : json) : M (world S) T :=
  match entity with
  | JObj fields =>
      if bool_decide ("client" ∈ fields.*1) then raise TypeError
      else (log (EvConstruct fields) ;;; lift_result (_constructor self fields))%py
  | _ => raise TypeError
  end.

Definition get self (entity_id : string) : M (world S) T :=
  (let* response := http_get (_client self) (_base_url self +:+ "/" +:+ entity_id) None in
   let* entity := Response_json response in
   construct self entity)%py.

(** The keys that [list] always injects. *)
Definition reserved (offset limit : Z) : gmap string string :=
  {[ "offset" := Py.str offset;
     "limit" := Py.str limit;
     "archived" := "false";
     "sortBy[createdAt]" := "desc" ]}.

(** [query_params = query_params or {}] followed by
    [query_params |= {...}]: a non-empty dictionary is updated in place,
    the right operand winning; [None] and the empty dictionary are
    replaced by a fresh one the caller never sees.  (A reference that
    points nowhere counts as an empty dictionary.) *)
Definition merge_reserved (query_params : option loc) (offset limit : Z)
    : M (world S) (gmap string string) :=
  fun w =>
    match query_params with
    | Some l =>
        let d := default ∅ (heap w !! l) in
        if bool_decide (d = ∅) then (inr (reserved offset limit ∪ ∅), w)
        else
          let d' := reserved offset limit ∪ d in
          (inr d', mkWorld (<[l := d']> (heap w)) (remote w) (trace w))
    | None => (inr (reserved offset limit ∪ ∅), w)
    end.

(** [int(response.headers.get("x-total-count"))] *)
Definition total_count {St} (response : Response) : M St Z :=
  match headers response !! "x-total-count" with
  | None => raise TypeError
  | Some v =>
      match Py.int v with
      | Some n => ret n
      | None => raise ValueError
      end
  end.

Definition list self (offset limit : Z) (query_params : option loc)
    : M (world S) (list T * Z) :=
  (let* query_params := merge_reserved query_params offset limit in
   let* response := http_get (_client self) (_base_url self) (Some query_params) in
   let* total := total_count response in
   let* decoded := Response_json response in
   let* items := iter_json decoded in
   let* entities := mapM (construct self) items in
   ret (entities, total))%py.

End methods.
End CRUDClient.

(** ** class Result *)

Module Result.
Section methods.
Context {S T : Type}.
Implicit Types self : Result S T.

Definition __init__ (offset limit : Z) (query_params : option loc)
    (requests : CRUDClient S T) : Result S T :=
  mkResult [] limit offset None query_params requests.

Definition set_offset (o : Z) self : Result S T :=
  mkResult (_data self) (limit self) o (_total self)
           (_query_params self) (_requests self).
Definition set_total (t : option Z) self : Result S T :=
  mkResult (_data self) (limit self) (offset self) t
           (_query_params self) (_requests self).
Definition set_data (d : list T) self : Result S T :=
  mkResult d (limit self) (offset self) (_total self)
           (_query_params self) (_requests self).

(** [self._data.popleft()] *)
Definition popleft : M (Result S T * world S) T :=
  (let* this := self in
   match _data this with
   | [] => raise IndexError
   | x :: rest => (update_self (set_data rest) ;;; ret x)
   end)%py.

Definition _fetch_next : M (Result S T * world S) unit :=
  (let* this := self in
   let* (entities, total) :=
       on_world (CRUDClient.list (_requests this) (offset this) (limit this)
                                 (_query_params this)) in
   update_self (fun r => set_offset (offset r + limit r) r) ;;;
   update_self (fun r => set_data (_data r ++ entities) r) ;;;
   update_self (set_total (Some total)) ;;;
   let* this := self in
   if Nat.eqb (length (_data this)) 0 then raise StopIteration else ret tt)%py.

Definition __next__ : M (Result S T * world S) T :=
  (let* this := self in
   (match _data this with
    | [] => _fetch_next
    | _ :: _ => ret tt
    end) ;;;
   popleft)%py.

Definition __len__ : M (Result S T * world S) (option Z) :=
  (let* this := self in
   (match _total this with
    | None =>
        (let* (_, total) :=
            on_world (CRUDClient.list (_requests this) 0 0 (_query_params this)) in
         update_self (set_total (Some total)))
    | Some _ => ret tt
    end) ;;;
   let* this := self in
   ret (_total this))%py.

(** The built-in [len(result)]: it calls [__len__] and insists on an
    integer between 0 and [sys.maxsize]. *)
Definition len : M (Result S T * world S) Z :=
  (let* n := __len__ in
   match n with
   | None => raise TypeError
   | Some n =>
       if (n <? 0)%Z then raise ValueError
       else if (2 ^ 63 <=? n)%Z then raise OverflowError
       else ret n
   end)%py.

Definition is_empty : M (Result S T * world S) bool :=
  (let* this := self in
   ret (bool_decide (_total this = Some 0)))%py.

(** [__iter__] returns the object itself: a loop over a [Result] works on
    the cursor the object already has. *)
Definition __iter__ self : Result S T := self.

(** Iteration to exhaustion, as a [for] loop does it: [__next__] is
    called until it raises [StopIteration]; any other exception leaves
    the loop.  [fuel] bounds the number of calls. *)
Fixpoint exhaust (fuel : nat) (acc : list T) (st : Result S T * world S)
    : option ((exn + list T) * (Result S T * world S)) :=
  match fuel with
  | O => None
  | Datatypes.S fuel' =>
      match __next__ st with
      | (inr x, st') => exhaust fuel' (acc ++ [x]) st'
      | (inl StopIteration, st') => Some (inr acc, st')
      | (inl e, st') => Some (inl e, st')
      end
  end.

(** [n] calls of [next(result)] in a row, collecting what they return; the
    first exception ends the run. *)
Fixpoint next_n (n : nat) (st : Result S T * world S)
    : (exn + list T) * (Result S T * world S) :=
  match n with
  | O => (inr [], st)
  | Datatypes.S n' =>
      match __next__ st with
      | (inr x, st') =>
          match next_n n' st' with
          | (inr xs, st'') => (inr (x :: xs), st'')
          | (inl e, st'') => (inl e, st'')
          end
      | (inl e, st') => (inl e, st')
      end
  end.

End methods.
End Result.

(** ** Pages and requests *)

(** [ceil(n / d)] for a positive [d]. *)
Definition ceil_div (n d : Z) : Z := (n + d - 1) / d.

(** The number of non-empty pages of a collection of [n] items, and the
    offsets of the first [k] pages from offset [o]. *)
Definition pages (n limit : Z) : nat := Z.to_nat (ceil_div n limit).

Definition page_offsets (o limit : Z) (k : nat) : list Z :=
  (fun i => o + Z.of_nat i * limit) <$> seq 0 k.

(** The requests a trace holds, and the offsets they asked for. *)
Definition requests (tr : list event) : list (string * option (gmap string string)) :=
  omap (fun e => match e with EvGet p q => Some (p, q) | _ => None end) tr.

Definition offset_of (r : string * option (gmap string string)) : option Z :=
  match r.2 with
  | Some q => q !! "offset" ≫= Py.int
  | None => None
  end.

Definition requested_offsets (tr : list event) : list Z :=
  omap offset_of (requests tr).

(** The factory calls a trace holds. *)
Definition constructions (tr : list event) : list (list (string * json)) :=
  omap (fun e => match e with EvConstruct k => Some k | _ => None end) tr.

(** Decoded bodies that are arrays, and the ones that iterate to nothing
    although they are not: the empty object and the empty string. *)
Definition is_array (j : json) : bool :=
  match j with JArr _ => true | _ => false end.

Definition empty_iterable (j : json) : bool :=
  match j with
  | JObj [] => true
  | JStr EmptyString => true
  | _ => false
  end.

(** ** Notions used to state the properties *)

Section notions.
Context {S T : Type}.
Implicit Types (self : CRUDClient S T) (r : Result S T) (w : world S).

(** The dictionary the caller passed, read off the heap. *)
Definition caller_params w (query_params : option loc) : gmap string string :=
  match query_params with
  | Some l => default ∅ (heap w !! l)
  | None => ∅
  end.

Definition effective_query w (query_params : option loc) (offset limit : Z)
    : gmap string string :=
  CRUDClient.reserved offset limit ∪ caller_params w query_params.

Definition heap_after w (query_params : option loc) (offset limit : Z)
    : gmap loc (gmap string string) :=
  match query_params with
  | Some l =>
      if bool_decide (caller_params w query_params = ∅) then heap w
      else <[l := effective_query w query_params offset limit]> (heap w)
  | None => heap w
  end.

Definition reserved_keys : list string :=
  ["offset"; "limit"; "archived"; "sortBy[createdAt]"].

(** What [list] does once the response is there. *)
Definition read_page self (response : Response) : M (world S) (list T * Z) :=
  (let* total := CRUDClient.total_count response in
   let* decoded := Response_json response in
   let* items := iter_json decoded in
   let* entities := mapM (CRUDClient.construct self) items in
   ret (entities, total))%py.

(** The factory calls never touch the heap or the service, and never add
    a request to the trace. *)
Definition only_constructs w w' : Prop :=
  heap w' = heap w /\ remote w' = remote w /\
  exists ks, trace w' = trace w ++ (EvConstruct <$> ks).

(** The page request of a [Result] in its current state. *)
Definition fetch_page r : M (world S) (list T * Z) :=
  CRUDClient.list (_requests r) (offset r) (limit r) (_query_params r).

(** The zero-limit request of the size query. *)
Definition fetch_count r : M (world S) (list T * Z) :=
  CRUDClient.list (_requests r) 0 0 (_query_params r).

(** The object after a page has arrived. *)
Definition fetched r (entities : list T) (total : Z) : Result S T :=
  mkResult (_data r ++ entities) (limit r) (offset r + limit r) (Some total)
           (_query_params r) (_requests r).

(** A dictionary that holds the four reserved entries. *)
Definition has_reserved (d : gmap string string) (offset limit : Z) : Prop :=
  d !! "offset" = Some (Py.str offset) /\
  d !! "limit" = Some (Py.str limit) /\
  d !! "archived" = Some "false" /\
  d !! "sortBy[createdAt]" = Some "desc".

(** The factory accepts the fields [row] and builds [t] from them. *)
Definition constructs_to (ctor : list (string * json) -> exn + T)
    (row : list (string * json)) (t : T) : Prop :=
  ("client" ∉ row.*1) /\ ctor row = inr t.

(** The calls from [w] to [w'] sent exactly the requests for [offsets]. *)
Definition requested w w' (offsets : list Z) : Prop :=
  length (requests (trace w')) = (length (requests (trace w)) + length offsets)%nat /\
  requested_offsets (trace w') = requested_offsets (trace w) ++ offsets.

(** The dictionary at [l] holds the four reserved entries. *)
Definition holds_reserved (h : gmap loc (gmap string string)) (l : loc)
    (offset limit : Z) : Prop :=
  exists d, h !! l = Some d /\ has_reserved d offset limit.

End notions.

(** ** A paging service

    The service the pagination properties are stated against: it holds a
    fixed collection [rows], answers a listing request with the window
    [rows[offset : offset + limit]] and reports the size of the whole
    collection in the [x-total-count] header. *)

Definition window {A} (offset limit : Z) (rows : list A) : list A :=
  take (Z.to_nat limit) (drop (Z.to_nat offset) rows).

Definition paging_response (rows : list (list (string * json))) (offset limit : Z)
    : Response :=
  mkResponse 200
    {[ "x-total-count" := Py.str (Z.of_nat (length rows)) ]}
    (Some (JArr (JObj <$> window offset limit rows))).

Definition paging_service (rows : list (list (string * json))) : Client unit :=
  mkClient (fun _ query_params s =>
    match query_params with
    | Some q =>
        match q !! "offset" ≫= Py.int, q !! "limit" ≫= Py.int with
        | Some o, Some l => (inr (paging_response rows o l), s)
        | _, _ => (inl (ClientError 400), s)
        end
    | None => (inl (ClientError 400), s)
    end).

(** A decimal integer string in the plain sense of the wire format: an
    optional sign followed by one or more of the digits [0] to [9]. *)
Fixpoint all_digits (s : string) : bool :=
  match s with
  | EmptyString => true
  | String c s' => Py.is_digit c && all_digits s'
  end.

Definition unsigned_decimal (s : string) : bool :=
  match s with
  | EmptyString => false
  | String _ _ => all_digits s
  end.

Definition decimal_integer_string (s : string) : bool :=
  match s with
  | String c s' =>
      if Ascii.eqb c "+" || Ascii.eqb c "-" then unsigned_decimal s'
      else unsigned_decimal s
  | EmptyString => false
  end.

(** A client that answers every request with the same response, and one
    that raises on every request. *)
Definition fixed_client (response : Response) : Client unit :=
  mkClient (fun _ _ s => (inr response, s)).

Definition raising_client (e : exn) : Client unit :=
  mkClient (fun _ _ s => (inl e, s)).

(** A response that reports 404 and still carries a JSON object. *)
Definition not_found_response : Response :=
  mkResponse 404 ∅ (Some (JObj [("detail", JStr "Not found")])).

(** A factory that keeps the decoded fields as they are. *)
Definition fields_entity : Type := list (string * json).
Definition keep_fields : fields_entity -> exn + fields_entity := inr.

Definition empty_world : world unit := mkWorld ∅ tt [].

(** A repository over the paging service. *)
Definition paging_crud (rows : list fields_entity) : CRUDClient unit fields_entity :=
  mkCRUDClient (paging_service rows) "/projects" keep_fields.

(** The collection of the pagination scenario: five entities. *)
Definition rows5 : list fields_entity :=
  [[("id", JNum 1)]; [("id", JNum 2)]; [("id", JNum 3)]; [("id", JNum 4)];
   [("id", JNum 5)]].

(** A repository whose client always raises. *)
Definition failing_crud : CRUDClient unit fields_entity :=
  mkCRUDClient (raising_client (ClientError 500)) "/projects" keep_fields.

(** A factory that insists on an [id] field. *)
Definition needs_id (row : fields_entity) : exn + fields_entity :=
  if bool_decide ("id" ∈ row.*1) then inr row
  else inl (ConstructorError "id").

(** A world whose heap holds one empty dictionary, at reference 1. *)
Definition empty_params_world : world unit :=
  mkWorld {[ 1%positive := ∅ ]} tt [].

(** A world whose heap holds one filter dictionary, at reference 1. *)
Definition filter_world : world unit :=
  mkWorld {[ 1%positive := {[ "name" := "x"; "limit" := "99" ]} ]} tt [].

(** * Properties *)

(** ** [str] and [int] *)

Example str_examples : Py.str 0 = "0" /\ Py.str 42 = "42" /\ Py.str (-7) = "-7".
Proof. repeat split. Qed.

Example int_examples :
  Py.int "42" = Some 42 /\ Py.int " -7 " = Some (-7) /\ Py.int "+007" = Some 7 /\
  Py.int "4_2" = Some 42 /\ Py.int "" = None /\ Py.int "abc" = None /\
  Py.int "4__2" = None /\ Py.int "_42" = None /\ Py.int "42_" = None /\
  Py.int "4 2" = None /\ Py.int "- 4" = None /\ Py.int "1.5" = None /\
  Py.int "0x10" = None /\ Py.int "4_ " = None /\ Py.int "+" = None.
Proof. repeat split. Qed.

Lemma digits_string_of_uint (d : uint) :
  Py.digits true (NilEmpty.string_of_uint d) = Some d.
Proof. induction d; simpl; rewrite ?IHd; reflexivity. Qed.

Lemma digits_string_of_uint_start (d : uint) :
  d <> Nil -> Py.digits false (NilEmpty.string_of_uint d) = Some d.
Proof.
  destruct d; intros Hd; try congruence; simpl;
    rewrite digits_string_of_uint; reflexivity.
Qed.

(** [int(str(n)) == n] *)
Lemma int_str (n : Z) : Py.int (Py.str n) = Some n.
Proof.
  destruct n as [|p|p]; [reflexivity| |].
  - unfold Py.str. simpl.
    assert (Hp : Pos.to_uint p <> Nil) by apply DecimalPos.Unsigned.to_uint_nonnil.
    pose proof (DecimalZ.of_to (Z.pos p)) as Hz. simpl in Hz.
    pose proof (digits_string_of_uint_start _ Hp) as Hd.
    unfold NilZero.string_of_uint, Py.int.
    destruct (Pos.to_uint p) eqn:E; try congruence; simpl in *;
      rewrite digits_string_of_uint in *; simpl; congruence.
  - unfold Py.str. simpl.
    assert (Hp : Pos.to_uint p <> Nil) by apply DecimalPos.Unsigned.to_uint_nonnil.
    pose proof (DecimalZ.of_to (Z.neg p)) as Hz. simpl in Hz.
    unfold NilZero.string_of_uint, Py.int. simpl.
    destruct (Pos.to_uint p) eqn:E; try congruence;
      rewrite digits_string_of_uint_start by congruence; simpl; congruence.
Qed.

(** What [int] accepts and what it rejects. *)

Lemma digit_char (c : ascii) :
  Py.is_digit c = true ->
  Ascii.eqb c "_" = false /\ Py.isspace c = false /\
  Ascii.eqb c "+" = false /\ Ascii.eqb c "-" = false /\
  forall d, is_Some (uint_of_char c (Some d)).
Proof.
  destruct c as [[] [] [] [] [] [] [] []]; vm_compute; intros H;
    try discriminate H; repeat split; eauto.
Qed.

Lemma uint_of_char_non_digit (c : ascii) (d : option uint) :
  Py.is_digit c = false -> uint_of_char c d = None.
Proof.
  destruct d; destruct c as [[] [] [] [] [] [] [] []]; vm_compute; intros H;
    try discriminate H; reflexivity.
Qed.

Lemma uint_of_char_None (c : ascii) : uint_of_char c None = None.
Proof. destruct c as [[] [] [] [] [] [] [] []]; reflexivity. Qed.

Lemma digits_all_digits (s : string) :
  all_digits s = true -> is_Some (Py.digits true s).
Proof.
  induction s as [|c s IH]; cbn; [eauto|].
  intros [Hc Hs]%andb_prop. destruct (digit_char c Hc) as (-> & -> & _ & _ & Hu).
  destruct (IH Hs) as [d ->]. apply Hu.
Qed.

Lemma digits_unsigned_decimal (s : string) :
  unsigned_decimal s = true -> is_Some (Py.digits false s).
Proof.
  destruct s as [|c s]; cbn; [discriminate|].
  intros [Hc Hs]%andb_prop. destruct (digit_char c Hc) as (-> & -> & _ & _ & Hu).
  destruct (digits_all_digits s Hs) as [d ->]. apply Hu.
Qed.

(** Every decimal integer string is accepted. *)
Lemma int_decimal_integer_string (s : string) :
  decimal_integer_string s = true -> is_Some (Py.int s).
Proof.
  destruct s as [|c s]; [discriminate|]. unfold decimal_integer_string.
  destruct (Ascii.eqb c "+") eqn:Hplus; [|destruct (Ascii.eqb c "-") eqn:Hminus].
  - apply Ascii.eqb_eq in Hplus as ->. cbn [orb].
    intros [d Hd]%digits_unsigned_decimal.
    change (Py.int (String "+" s)) with (Z.of_uint <$> Py.digits false s).
    rewrite Hd. cbn. eauto.
  - apply Ascii.eqb_eq in Hminus as ->. cbn [orb].
    intros [d Hd]%digits_unsigned_decimal.
    change (Py.int (String "-" s)) with (Z.opp <$> (Z.of_uint <$> Py.digits false s)).
    rewrite Hd. cbn. eauto.
  - cbn [orb]. intros H. pose proof H as [Hc _]%andb_prop.
    destruct (digit_char c Hc) as (_ & Hsp & _).
    unfold Py.int. cbn [Py.skip_space]. rewrite Hsp, Hplus, Hminus.
    apply digits_unsigned_decimal in H as [d ->]. cbn. eauto.
Qed.

Lemma all_space_numeric (s : string) :
  Py.all_space s = true -> Py.all_numeric s = true.
Proof.
  unfold Py.all_space. induction s as [|c s IH]; cbn; [done|].
  unfold Py.numeric_char. destruct (Py.isspace c); [|done].
  intros H. rewrite (IH H). by rewrite orb_true_r.
Qed.

Lemma digits_non_numeric (s : string) :
  forall prev, Py.all_numeric s = false -> Py.digits prev s = None.
Proof.
  induction s as [|c s IH]; intros prev; cbn; [discriminate|].
  intros H. destruct (Ascii.eqb c "_") eqn:Hus.
  - destruct prev; [|done]. apply IH.
    unfold Py.numeric_char in H. rewrite Hus, orb_true_r in H. exact H.
  - destruct (Py.isspace c) eqn:Hsp.
    + destruct prev; [|done]. cbn. destruct (Py.all_space s) eqn:Hall; [|done].
      apply all_space_numeric in Hall. rewrite Hall in H.
      unfold Py.numeric_char in H. rewrite Hsp, orb_true_r in H. discriminate.
    + destruct (Py.is_digit c) eqn:Hd.
      * rewrite IH; [apply uint_of_char_None|].
        unfold Py.numeric_char in H. by rewrite Hd in H.
      * by apply uint_of_char_non_digit.
Qed.

Lemma skip_space_non_numeric (s : string) :
  Py.all_numeric s = false -> Py.all_numeric (Py.skip_space s) = false.
Proof.
  induction s as [|c s IH]; cbn; [done|]. intros H.
  destruct (Py.isspace c) eqn:Hsp; [|exact H]. apply IH.
  unfold Py.numeric_char in H. rewrite Hsp, orb_true_r in H. exact H.
Qed.

(** A string with a character that is neither a digit, a sign, an
    underscore nor white space is rejected. *)
Lemma int_non_numeric (s : string) :
  Py.all_numeric s = false -> Py.int s = None.
Proof.
  intros H%skip_space_non_numeric. unfold Py.int.
  destruct (Py.skip_space s) as [|c s']; [done|].
  destruct (Ascii.eqb c "+") eqn:Hplus; [|destruct (Ascii.eqb c "-") eqn:Hminus].
  - rewrite digits_non_numeric; [done|]. cbn in H.
    unfold Py.numeric_char in H. rewrite Hplus in H. cbn in H.
    by rewrite !orb_true_r in H.
  - rewrite digits_non_numeric; [done|]. cbn in H.
    unfold Py.numeric_char in H. rewrite Hminus in H. cbn in H.
    by rewrite !orb_true_r in H.
  - by rewrite digits_non_numeric.
Qed.

(** ** The trace *)

Lemma requests_app (tr1 tr2 : list event) :
  requests (tr1 ++ tr2) = requests tr1 ++ requests tr2.
Proof. apply omap_app. Qed.

Lemma requests_constructs (rows : list (list (string * json))) :
  requests (EvConstruct <$> rows) = [].
Proof. induction rows; [reflexivity | assumption]. Qed.

(** ** [CRUDClient.list]: the query it sends *)

Section crud_client.
Context {S T : Type}.
Implicit Types (self : CRUDClient S T) (w : world S).

Lemma merge_reserved_eq w query_params offset limit :
  CRUDClient.merge_reserved query_params offset limit w =
  (inr (effective_query w query_params offset limit),
   mkWorld (heap_after w query_params offset limit) (remote w) (trace w)).
Proof.
  unfold CRUDClient.merge_reserved, effective_query, heap_after, caller_params.
  destruct query_params as [l|]; [|by destruct w].
  case_bool_decide as Hd; [by rewrite Hd; destruct w | done].
Qed.

Lemma reserved_lookup (offset limit : Z) :
  CRUDClient.reserved offset limit !! "offset" = Some (Py.str offset) /\
  CRUDClient.reserved offset limit !! "limit" = Some (Py.str limit) /\
  CRUDClient.reserved offset limit !! "archived" = Some "false" /\
  CRUDClient.reserved offset limit !! "sortBy[createdAt]" = Some "desc".
Proof. unfold CRUDClient.reserved. repeat split; by simplify_map_eq. Qed.

Lemma reserved_lookup_other (offset limit : Z) (k : string) :
  k ∉ reserved_keys -> CRUDClient.reserved offset limit !! k = None.
Proof.
  unfold reserved_keys, CRUDClient.reserved. intros Hk.
  repeat (rewrite lookup_insert_ne; [|intros <-; apply Hk; set_solver]).
  apply lookup_singleton_ne. intros <-; apply Hk; set_solver.
Qed.

Lemma effective_query_reserved w query_params offset limit :
  let q := effective_query w query_params offset limit in
  q !! "offset" = Some (Py.str offset) /\
  q !! "limit" = Some (Py.str limit) /\
  q !! "archived" = Some "false" /\
  q !! "sortBy[createdAt]" = Some "desc".
Proof.
  destruct (reserved_lookup offset limit) as (H1 & H2 & H3 & H4).
  cbn. unfold effective_query.
  repeat split; by apply lookup_union_Some_l.
Qed.

Lemma effective_query_other w query_params offset limit (k : string) :
  k ∉ reserved_keys ->
  effective_query w query_params offset limit !! k =
  caller_params w query_params !! k.
Proof.
  intros Hk. unfold effective_query.
  by rewrite lookup_union_r by by apply reserved_lookup_other.
Qed.

Lemma list_eq self offset limit query_params w :
  CRUDClient.list self offset limit query_params w =
  let q := effective_query w query_params offset limit in
  let '(r, s') := client_get (_client self) (_base_url self) (Some q) (remote w) in
  let w' := mkWorld (heap_after w query_params offset limit) s'
                    (trace w ++ [EvGet (_base_url self) (Some q)]) in
  match r with
  | inr response => read_page self response w'
  | inl e => (inl e, w')
  end.
Proof.
  unfold CRUDClient.list, bind at 1. rewrite merge_reserved_eq.
  unfold bind at 1, http_get. cbn.
  destruct (client_get _ _ _ _) as [[e|response] s']; reflexivity.
Qed.

Lemma only_constructs_refl w : only_constructs w w.
Proof. repeat split. exists []. by rewrite app_nil_r. Qed.

Lemma only_constructs_trans w1 w2 w3 :
  only_constructs w1 w2 -> only_constructs w2 w3 -> only_constructs w1 w3.
Proof.
  intros (Hh & Hr & ks & Ht) (Hh' & Hr' & ks' & Ht').
  repeat split; [congruence | congruence |].
  exists (ks ++ ks'). rewrite Ht', Ht, fmap_app, app_assoc. reflexivity.
Qed.

Lemma construct_frame self entity w r w' :
  CRUDClient.construct self entity w = (r, w') -> only_constructs w w'.
Proof.
  destruct entity; cbn; try (intros [= <- <-]; apply only_constructs_refl).
  case_bool_decide; cbn; [intros [= <- <-]; apply only_constructs_refl|].
  unfold bind, log, modify, lift_result. cbn. intros [= <- <-].
  repeat split. by exists [fields].
Qed.

Lemma mapM_construct_frame self items w r w' :
  mapM (CRUDClient.construct self) items w = (r, w') -> only_constructs w w'.
Proof.
  revert w r w'. induction items as [|j items IH]; intros w r w'; cbn.
  { intros [= <- <-]. apply only_constructs_refl. }
  unfold bind at 1.
  destruct (CRUDClient.construct self j w) as [[e|t] w1] eqn:Hj;
    apply construct_frame in Hj.
  { by intros [= <- <-]. }
  unfold bind at 1.
  destruct (mapM _ items w1) as [[e|ts] w2] eqn:Hm; apply IH in Hm;
    intros [= <- <-]; eapply only_constructs_trans; eauto.
Qed.

Lemma iter_json_frame (j : json) w r w' :
  iter_json j w = (r, w') -> w' = w.
Proof. destruct j; cbn; by intros [= <- <-]. Qed.

Lemma read_page_frame self response w r w' :
  read_page self response w = (r, w') -> only_constructs w w'.
Proof.
  unfold read_page, bind, CRUDClient.total_count, Response_json.
  destruct (headers response !! "x-total-count") as [v|]; cbn;
    [|intros [= <- <-]; apply only_constructs_refl].
  destruct (Py.int v) as [n|]; cbn;
    [|intros [= <- <-]; apply only_constructs_refl].
  destruct (body response) as [j|]; cbn;
    [|intros [= <- <-]; apply only_constructs_refl].
  destruct (iter_json j w) as [[e|items] w1] eqn:Hit;
    apply iter_json_frame in Hit; subst w1.
  { intros [= <- <-]; apply only_constructs_refl. }
  destruct (mapM _ items w) as [[e|ts] w2] eqn:Hm;
    apply mapM_construct_frame in Hm; by intros [= <- <-].
Qed.

(** One call of [list] is one request: the world after the call. *)
Lemma list_world self offset limit query_params w r w' :
  CRUDClient.list self offset limit query_params w = (r, w') ->
  heap w' = heap_after w query_params offset limit /\
  exists ks,
    trace w' = trace w ++
      EvGet (_base_url self) (Some (effective_query w query_params offset limit))
      :: (EvConstruct <$> ks).
Proof.
  rewrite list_eq. cbn.
  destruct (client_get _ _ _ _) as [[e|response] s'].
  { intros [= <- <-]. cbn. split; [done|]. by exists []. }
  intros (Hh & _ & ks & Ht)%read_page_frame. cbn in *.
  split; [done|]. exists ks. by rewrite Ht, <- app_assoc.
Qed.

(** C5. Whatever mapping the caller supplies, the request that [list]
    sends carries the module's own values under [offset], [limit],
    [archived] and [sortBy[createdAt]], also where the caller supplied
    these keys, and agrees with the caller's mapping on every other
    key. *)
Theorem list_reserved_keys_win self offset limit query_params w :
  exists q ks,
    trace (CRUDClient.list self offset limit query_params w).2 =
      trace w ++ EvGet (_base_url self) (Some q) :: (EvConstruct <$> ks) /\
    q !! "offset" = Some (Py.str offset) /\
    q !! "limit" = Some (Py.str limit) /\
    q !! "archived" = Some "false" /\
    q !! "sortBy[createdAt]" = Some "desc" /\
    forall k : string,
      k ∉ reserved_keys -> q !! k = caller_params w query_params !! k.
Proof.
  destruct (CRUDClient.list self offset limit query_params w) as [r w'] eqn:E.
  apply list_world in E as (_ & ks & Ht).
  exists (effective_query w query_params offset limit), ks.
  split; [exact Ht|].
  pose proof (effective_query_reserved w query_params offset limit) as (?&?&?&?).
  repeat split; try done. apply effective_query_other.
Qed.

(** The amended C8. When the client returns a response, [list] raises at
    its own call, before any entity is constructed, whenever the
    [x-total-count] header is missing ([TypeError]) or carries a value
    that [int] rejects ([ValueError]); it returns no result then.  What
    [int] accepts is Python's base-10 integer syntax: digits, with an
    optional sign, single underscores between digits and surrounding
    white space. *)
Theorem list_malformed_total self offset limit query_params w response s' :
  let q := effective_query w query_params offset limit in
  client_get (_client self) (_base_url self) (Some q) (remote w)
    = (inr response, s') ->
  headers response !! "x-total-count" ≫= Py.int = None ->
  CRUDClient.list self offset limit query_params w =
  (inl (match headers response !! "x-total-count" with
        | None => TypeError
        | Some _ => ValueError
        end),
   mkWorld (heap_after w query_params offset limit) s'
           (trace w ++ [EvGet (_base_url self) (Some q)])).
Proof.
  intros q Hget Hbad. subst q. rewrite list_eq. cbv zeta. rewrite Hget.
  unfold read_page, bind, CRUDClient.total_count.
  destruct (headers response !! "x-total-count") as [v|]; cbn in *; [|done].
  by rewrite Hbad.
Qed.

(** The amended C2. [get] looks at no status.  An error raised by the
    client propagates unchanged and the factory is not called; a response
    whose body decodes to an object that carries no [client] key is handed
    to the factory whatever its status, and [get] returns what the factory
    returns. *)
Theorem get_no_status_check self (entity_id : string) w :
  let path := _base_url self +:+ "/" +:+ entity_id in
  (forall e s',
      client_get (_client self) path None (remote w) = (inl e, s') ->
      CRUDClient.get self entity_id w =
      (inl e, mkWorld (heap w) s' (trace w ++ [EvGet path None]))) /\
  (forall response fields s',
      client_get (_client self) path None (remote w) = (inr response, s') ->
      body response = Some (JObj fields) ->
      "client" ∉ fields.*1 ->
      CRUDClient.get self entity_id w =
      (_constructor self fields,
       mkWorld (heap w) s' (trace w ++ [EvGet path None; EvConstruct fields]))).
Proof.
  intros path. split.
  - intros e s' Hget. unfold CRUDClient.get, bind, http_get.
    fold path. by rewrite Hget.
  - intros response fields s' Hget Hbody Hclient.
    unfold CRUDClient.get, bind at 1, http_get. fold path. rewrite Hget.
    unfold bind at 1, Response_json. rewrite Hbody. cbn.
    rewrite bool_decide_eq_false_2 by done.
    unfold bind, log, modify, lift_result. cbn.
    by rewrite <- app_assoc.
Qed.

End crud_client.

(** C2 as stated fails: a client that returns a 404 response instead of
    raising makes [get] call the factory and return an entity. *)
Lemma get_404_calls_factory :
  let crud := mkCRUDClient (fixed_client not_found_response) "/projects" keep_fields in
  let out := CRUDClient.get crud "abc" empty_world in
  status_code not_found_response = 404 /\
  out.1 = inr [("detail", JStr "Not found")] /\
  trace out.2 = [EvGet "/projects/abc" None;
                 EvConstruct [("detail", JStr "Not found")]].
Proof. repeat split. Qed.

Lemma get_no_status_check_witness :
  CRUDClient.get (mkCRUDClient (raising_client (ClientError 404)) "/projects" keep_fields)
                 "abc" empty_world
  = (inl (ClientError 404), mkWorld ∅ tt [EvGet "/projects/abc" None]) /\
  CRUDClient.get (mkCRUDClient (fixed_client not_found_response) "/projects" keep_fields)
                 "abc" empty_world
  = (inr [("detail", JStr "Not found")],
     mkWorld ∅ tt [EvGet "/projects/abc" None;
                   EvConstruct [("detail", JStr "Not found")]]).
Proof.
  split.
  - apply (proj1 (get_no_status_check
                    (mkCRUDClient (raising_client (ClientError 404)) "/projects" keep_fields)
                    "abc" empty_world)).
    reflexivity.
  - apply (proj2 (get_no_status_check
                    (mkCRUDClient (fixed_client not_found_response) "/projects" keep_fields)
                    "abc" empty_world) not_found_response).
    + reflexivity.
    + reflexivity.
    + cbn. by intros [=]%list_elem_of_singleton.
Defined.

(** C8 as stated fails: ["4_2"] is not a decimal integer string, yet [int]
    reads it as 42 and [list] returns a result. *)
Lemma list_accepts_underscored_total :
  let response := mkResponse 200 {[ "x-total-count" := "4_2" ]} (Some (JArr [])) in
  let crud := mkCRUDClient (fixed_client response) "/projects" keep_fields in
  decimal_integer_string "4_2" = false /\
  (CRUDClient.list crud 0 10 None empty_world).1 = inr ([], 42).
Proof. split; reflexivity. Qed.

Lemma list_malformed_total_witness :
  let response := mkResponse 200 {[ "x-total-count" := "many" ]} (Some (JArr [])) in
  let crud := mkCRUDClient (fixed_client response) "/projects" keep_fields in
  (CRUDClient.list crud 0 10 None empty_world).1 = inl ValueError.
Proof.
  cbn zeta.
  rewrite (list_malformed_total
             (mkCRUDClient (fixed_client (mkResponse 200 {[ "x-total-count" := "many" ]}
                                                     (Some (JArr []))))
                           "/projects" keep_fields)
             0 10 None empty_world
             (mkResponse 200 {[ "x-total-count" := "many" ]} (Some (JArr []))) tt).
  - reflexivity.
  - reflexivity.
  - reflexivity.
Defined.


(** ** [Result]: what one call does *)

Section result.
Context {S T : Type}.
Implicit Types (r : Result S T) (w : world S).

Lemma fetch_next_eq r w :
  Result._fetch_next (r, w) =
  match fetch_page r w with
  | (inr (entities, total), w') =>
      (match _data r ++ entities with
       | [] => inl StopIteration
       | _ :: _ => inr tt
       end, (fetched r entities total, w'))
  | (inl e, w') => (inl e, (r, w'))
  end.
Proof.
  unfold Result._fetch_next, bind, self, on_world, update_self, fetch_page.
  cbn. destruct (CRUDClient.list _ _ _ _ w) as [[e|[entities total]] w'];
    [reflexivity|]. cbn.
  unfold fetched. destruct (_data r ++ entities); reflexivity.
Qed.

Lemma next_buffered r w x rest :
  _data r = x :: rest ->
  Result.__next__ (r, w) = (inr x, (Result.set_data rest r, w)).
Proof.
  intros Hd. unfold Result.__next__, Result.popleft, bind, self, update_self, ret.
  cbn. rewrite Hd. cbn. rewrite Hd. reflexivity.
Qed.

Lemma next_idle r w :
  _data r = [] ->
  Result.__next__ (r, w) =
  match fetch_page r w with
  | (inr (x :: rest, total), w') =>
      (inr x, (Result.set_data rest (fetched r (x :: rest) total), w'))
  | (inr ([], total), w') => (inl StopIteration, (fetched r [] total, w'))
  | (inl e, w') => (inl e, (r, w'))
  end.
Proof.
  intros Hd. unfold Result.__next__, bind at 1, self. cbn. rewrite Hd.
  unfold bind at 1. rewrite fetch_next_eq.
  destruct (fetch_page r w) as [[e|[entities total]] w']; [reflexivity|].
  rewrite Hd. cbn. destruct entities as [|x rest]; [reflexivity|].
  unfold Result.popleft, bind, self. cbn. rewrite Hd. reflexivity.
Qed.

Lemma len_known r w (n : Z) :
  _total r = Some n -> Result.__len__ (r, w) = (inr (Some n), (r, w)).
Proof.
  intros Ht. unfold Result.__len__, bind, self. cbn. rewrite Ht. cbn.
  by rewrite Ht.
Qed.

Lemma len_unknown r w :
  _total r = None ->
  Result.__len__ (r, w) =
  match fetch_count r w with
  | (inr (_, total), w') =>
      (inr (Some total), (Result.set_total (Some total) r, w'))
  | (inl e, w') => (inl e, (r, w'))
  end.
Proof.
  intros Ht. unfold Result.__len__, bind, self, on_world, update_self, fetch_count.
  cbn. rewrite Ht. cbn.
  destruct (CRUDClient.list _ _ _ _ w) as [[e|[entities total]] w']; reflexivity.
Qed.

Lemma is_empty_eq r w :
  Result.is_empty (r, w) = (inr (bool_decide (_total r = Some 0)), (r, w)).
Proof. reflexivity. Qed.

(** C6. When the total is unknown and [len] succeeds, a second [len] returns
    the same value and changes nothing, so the two calls together send
    exactly one request, the zero-limit one. *)
Theorem len_twice_one_request r w (n : Z) st :
  _total r = None ->
  Result.len (r, w) = (inr n, st) ->
  Result.len st = (inr n, st) /\
  requests (trace st.2) =
    requests (trace w) ++
    [(_base_url (_requests r), Some (effective_query w (_query_params r) 0 0))].
Proof.
  intros Ht. unfold Result.len, bind at 1. rewrite (len_unknown _ _ Ht).
  destruct (fetch_count r w) as [[e|[entities total]] w'] eqn:Hf; [done|].
  destruct (total <? 0)%Z eqn:Hneg; [done|].
  destruct (2 ^ 63 <=? total)%Z eqn:Hbig; [done|].
  intros [= <- <-]. split.
  - unfold bind. rewrite (len_known _ _ total) by reflexivity.
    by rewrite Hneg, Hbig.
  - apply list_world in Hf as (_ & ks & Htr). cbn. rewrite Htr.
    rewrite requests_app. cbn. by rewrite requests_constructs.
Qed.


(** C9. When the page request of [__next__] raises, the object is left
    exactly as it was (offset, buffer and total); and whenever [__next__]
    changes the offset, a page request has succeeded and the offset has
    advanced by [limit]. *)
Theorem fetch_atomic_on_error r w :
  (forall e w',
      _data r = [] -> fetch_page r w = (inl e, w') ->
      Result.__next__ (r, w) = (inl e, (r, w'))) /\
  (offset (Result.__next__ (r, w)).2.1 <> offset r ->
   exists entities total w',
     _data r = [] /\ fetch_page r w = (inr (entities, total), w') /\
     offset (Result.__next__ (r, w)).2.1 = offset r + limit r).
Proof.
  split.
  - intros e w' Hd Hf. by rewrite (next_idle _ _ Hd), Hf.
  - destruct (_data r) as [|x rest] eqn:Hd.
    + rewrite (next_idle _ _ Hd).
      destruct (fetch_page r w) as [[e|[[|y page] total]] w']; cbn; [done|..];
        intros _; eexists _, _, _; eauto.
    + by rewrite (next_buffered _ _ _ _ Hd).
Qed.


Lemma heap_after_nonempty w (l : loc) (d : gmap string string) (offset limit : Z) :
  heap w !! l = Some d -> d <> ∅ ->
  heap_after w (Some l) offset limit = <[l := CRUDClient.reserved offset limit ∪ d]> (heap w).
Proof.
  intros Hl Hd. unfold heap_after, effective_query, caller_params. rewrite Hl. cbn.
  by rewrite bool_decide_eq_false_2.
Qed.

Lemma list_holds_reserved (self : CRUDClient S T) w (l : loc)
    (d : gmap string string) (offset limit : Z) :
  heap w !! l = Some d -> d <> ∅ ->
  holds_reserved (heap (CRUDClient.list self offset limit (Some l) w).2) l offset limit.
Proof.
  intros Hl Hd.
  destruct (CRUDClient.list self offset limit (Some l) w) as [res w'] eqn:Hf.
  apply list_world in Hf as (Hh & _). cbn. rewrite Hh.
  rewrite (heap_after_nonempty _ _ _ _ _ Hl Hd).
  exists (CRUDClient.reserved offset limit ∪ d). split; [apply lookup_insert_eq|].
  destruct (reserved_lookup offset limit) as (?&?&?&?).
  repeat split; by apply lookup_union_Some_l.
Qed.

(** C10. [list] updates a non-empty caller dictionary in place: after the
    call, whether it returned or raised, the caller's dictionary holds the
    four reserved entries.  So does the dictionary a [Result] stores, after
    the page request of [__next__] and after the count request of
    [__len__]. *)
Theorem list_mutates_query_params r w (l : loc) (d : gmap string string) :
  _query_params r = Some l -> heap w !! l = Some d -> d <> ∅ ->
  (forall offset limit,
      holds_reserved
        (heap (CRUDClient.list (_requests r) offset limit (Some l) w).2)
        l offset limit) /\
  (_data r = [] ->
   holds_reserved (heap (Result.__next__ (r, w)).2.2) l (offset r) (limit r)) /\
  (_total r = None ->
   holds_reserved (heap (Result.__len__ (r, w)).2.2) l 0 0).
Proof.
  intros Hq Hl Hd. split; [|split].
  - intros offset limit. by eapply list_holds_reserved.
  - intros Hdata. rewrite (next_idle _ _ Hdata).
    pose proof (list_holds_reserved (_requests r) w l d (offset r) (limit r) Hl Hd) as H.
    unfold fetch_page. rewrite Hq.
    by destruct (CRUDClient.list _ _ _ _ w) as [[e|[[|y page] total]] w'].
  - intros Ht. rewrite (len_unknown _ _ Ht).
    pose proof (list_holds_reserved (_requests r) w l d 0 0 Hl Hd) as H.
    unfold fetch_count. rewrite Hq.
    by destruct (CRUDClient.list _ _ _ _ w) as [[e|[entities total]] w'].
Qed.

End result.

(** ** Pagination over the paging service *)

Section paging.
Context {T : Type}.
Variable rows : list (list (string * json)).
Variable ents : list T.
Variable ctor : list (string * json) -> exn + T.
Variable base : string.
Hypothesis rows_construct : Forall2 (constructs_to ctor) rows ents.

Local Abbreviation crud := (mkCRUDClient (paging_service rows) base ctor).
Local Abbreviation N := (Z.of_nat (length rows)).

Lemma mapM_construct_rows (rs : list (list (string * json))) (ts : list T)
    (w : world unit) :
  Forall2 (constructs_to ctor) rs ts ->
  mapM (CRUDClient.construct crud) (JObj <$> rs) w =
  (inr ts, mkWorld (heap w) (remote w) (trace w ++ (EvConstruct <$> rs))).
Proof.
  intros H. revert w. induction H as [|row t rs ts [Hc Hr] _ IH]; intros w.
  { cbn. rewrite app_nil_r. by destruct w. }
  cbn. unfold bind at 1. cbn.
  rewrite bool_decide_eq_false_2 by done.
  unfold bind at 1, log, modify, lift_result. cbn. rewrite Hr.
  unfold bind at 1. rewrite IH. cbn. by rewrite <- app_assoc.
Qed.

(** A [list] call against the paging service returns the window and the
    size of the collection, and sends one request. *)
Lemma paging_list (offset limit : Z) (query_params : option loc) (w : world unit) :
  CRUDClient.list crud offset limit query_params w =
  (inr (window offset limit ents, N),
   mkWorld (heap_after w query_params offset limit) tt
           (trace w ++
            EvGet base (Some (effective_query w query_params offset limit))
            :: (EvConstruct <$> window offset limit rows))).
Proof.
  rewrite list_eq. cbn.
  pose proof (effective_query_reserved w query_params offset limit) as (Ho & Hl & _).
  cbn in Ho, Hl. rewrite Ho, Hl. cbn. rewrite !int_str.
  destruct w as [h [] tr]. cbn.
  unfold read_page. unfold bind at 1. unfold CRUDClient.total_count.
  unfold paging_response at 1. cbn [headers].
  rewrite lookup_singleton_eq, int_str. unfold ret at 1.
  unfold bind at 1. unfold Response_json at 1. cbn [body paging_response].
  unfold ret at 1. unfold bind at 1. cbn [iter_json]. unfold ret at 1.
  unfold bind at 1.
  rewrite (mapM_construct_rows (window offset limit rows) (window offset limit ents)).
  - cbn. by rewrite <- app_assoc.
  - unfold window. by apply Forall2_take, Forall2_drop.
Qed.

Lemma requested_step (w w' : world unit) (q : gmap string string)
    (ks : list (list (string * json))) (o : Z) :
  trace w' = trace w ++ EvGet base (Some q) :: (EvConstruct <$> ks) ->
  q !! "offset" = Some (Py.str o) ->
  requested w w' [o].
Proof.
  intros Ht Ho. unfold requested, requested_offsets. rewrite Ht.
  rewrite requests_app. cbn. rewrite requests_constructs.
  split; [by rewrite length_app|].
  rewrite omap_app. cbn. unfold offset_of at 2. cbn. rewrite Ho. cbn.
  by rewrite int_str.
Qed.

Lemma requested_cons (w w1 w' : world unit) (o : Z) (offsets : list Z) :
  requested w w1 [o] -> requested w1 w' offsets -> requested w w' (o :: offsets).
Proof.
  intros [Hl1 Ho1] [Hl2 Ho2]. split.
  - rewrite Hl2, Hl1. cbn. lia.
  - by rewrite Ho2, Ho1, <- app_assoc.
Qed.

Variable L : Z.
Hypothesis L_pos : 1 <= L.
Variable qp : option loc.

Local Abbreviation idle o tot := (mkResult [] L o tot qp crud).

Lemma ents_length : length ents = length rows.
Proof. symmetry. by eapply Forall2_length. Qed.

Lemma window_drop (o : Z) :
  0 <= o -> window o L ents ++ drop (Z.to_nat (o + L)) ents = drop (Z.to_nat o) ents.
Proof.
  intros Ho. unfold window.
  rewrite Z2Nat.inj_add by lia. rewrite <- drop_drop. apply take_drop.
Qed.

Lemma window_nil (o : Z) : N <= o -> window o L ents = [].
Proof.
  intros Ho. unfold window. rewrite drop_ge; [apply take_nil|].
  rewrite ents_length. lia.
Qed.

Lemma window_nonempty (o : Z) : 0 <= o < N -> window o L ents <> [].
Proof.
  intros Ho Hnil. apply (f_equal length) in Hnil. unfold window in Hnil.
  rewrite length_take, length_drop, ents_length in Hnil. cbn in Hnil. lia.
Qed.

Lemma pages_past_end (o : Z) : N <= o -> pages (N - o) L = 0%nat.
Proof.
  intros Ho. unfold pages, ceil_div.
  assert ((N - o + L - 1) / L < 1) by (apply Z.div_lt_upper_bound; lia). lia.
Qed.

Lemma pages_before_end (o : Z) :
  o < N -> pages (N - o) L = Datatypes.S (pages (N - (o + L)) L).
Proof.
  intros Ho. unfold pages, ceil_div.
  replace (N - o + L - 1) with (N - (o + L) + L - 1 + 1 * L) by lia.
  rewrite Z.div_add by lia.
  assert (0 <= (N - (o + L) + L - 1) / L) by (apply Z.div_pos; lia). lia.
Qed.

Lemma page_offsets_cons (o : Z) (k : nat) :
  page_offsets o L (Datatypes.S k) = o :: page_offsets (o + L) L k.
Proof.
  unfold page_offsets. cbn. f_equal; [lia|].
  rewrite <- fmap_S_seq, <- list_fmap_compose.
  apply list_fmap_ext. intros _ i _. cbn. lia.
Qed.

Lemma exhaust_buffered (buf : list T) :
  forall (fuel : nat) (acc : list T) (r : Result unit T) (w : world unit),
    _data r = buf ->
    Result.exhaust (length buf + fuel) acc (r, w) =
    Result.exhaust fuel (acc ++ buf) (Result.set_data [] r, w).
Proof.
  induction buf as [|x rest IH]; intros fuel acc r w Hd.
  - cbn. rewrite app_nil_r. destruct r; cbn in *; by subst.
  - cbn [length Nat.add Result.exhaust]. rewrite (next_buffered _ _ _ _ Hd).
    rewrite (IH fuel (acc ++ [x]) (Result.set_data rest r) w) by reflexivity.
    by rewrite <- app_assoc.
Qed.

(** Iterating an idle [Result] that stands at offset [o]: it yields the
    rest of the collection, and asks for the pages at [o], [o + L], ... up
    to and including the first empty one. *)
Lemma exhaust_idle (k : nat) :
  forall (o : Z) (tot : option Z) (acc : list T) (w : world unit) (fuel : nat),
    0 <= o -> N - o <= Z.of_nat k * L ->
    exists w',
      Result.exhaust (length (drop (Z.to_nat o) ents) + Datatypes.S fuel) acc (idle o tot, w) =
        Some (inr (acc ++ drop (Z.to_nat o) ents),
              (idle (o + Z.of_nat (Datatypes.S (pages (N - o) L)) * L) (Some N), w')) /\
      requested w w' (page_offsets o L (Datatypes.S (pages (N - o) L))).
Proof.
  assert (Hend : forall o tot acc w fuel, 0 <= o -> N <= o ->
    exists w',
      Result.exhaust (length (drop (Z.to_nat o) ents) + Datatypes.S fuel) acc (idle o tot, w) =
        Some (inr (acc ++ drop (Z.to_nat o) ents),
              (idle (o + Z.of_nat (Datatypes.S (pages (N - o) L)) * L) (Some N), w')) /\
      requested w w' (page_offsets o L (Datatypes.S (pages (N - o) L)))).
  { intros o tot acc w fuel Ho Hge.
    rewrite (pages_past_end o Hge).
    rewrite drop_ge by (rewrite ents_length; lia). cbn [length Nat.add Result.exhaust].
    rewrite next_idle by reflexivity. unfold fetch_page. cbn [_requests offset limit _query_params].
    rewrite paging_list, (window_nil o Hge), app_nil_r.
    eexists. split.
    - unfold fetched. cbn [_data limit offset _query_params _requests app].
      do 3 f_equal. f_equal. lia.
    - unfold page_offsets. cbn [seq fmap list_fmap].
      replace (o + Z.of_nat 0 * L) with o by lia.
      eapply requested_step; [reflexivity|].
      apply effective_query_reserved. }
  induction k as [|k IH]; intros o tot acc w fuel Ho Hk.
  { apply Hend; lia. }
  destruct (Z_lt_ge_dec o N) as [Hlt|Hge]; [|apply Hend; lia].
  pose proof (window_nonempty o (conj Ho Hlt)) as Hne.
  pose proof (window_drop o Ho) as Hsplit.
  destruct (window o L ents) as [|x rest] eqn:Hwin; [done|].
  rewrite <- Hsplit, length_app. cbn [length].
  replace (Datatypes.S (length rest) + length (drop (Z.to_nat (o + L)) ents) + Datatypes.S fuel)%nat
    with (Datatypes.S (length rest + (length (drop (Z.to_nat (o + L)) ents) + Datatypes.S fuel)))
    by lia.
  cbn [Result.exhaust].
  rewrite next_idle by reflexivity. unfold fetch_page. cbn [_requests offset limit _query_params].
  rewrite paging_list, Hwin.
  rewrite exhaust_buffered by reflexivity.
  set (w1 := mkWorld _ _ _).
  destruct (IH (o + L) (Some N) ((acc ++ [x]) ++ rest) w1 fuel) as (w' & Hex & Hreq); [lia..|].
  exists w'. split.
  - unfold fetched, Result.set_data. cbn [_data limit offset _total _query_params _requests].
    rewrite Hex. do 2 f_equal.
    + by rewrite <- !app_assoc.
    + f_equal. f_equal. rewrite (pages_before_end o Hlt). lia.
  - rewrite (pages_before_end o Hlt), page_offsets_cons.
    eapply requested_cons; [|exact Hreq].
    eapply requested_step; [reflexivity|]. apply effective_query_reserved.
Qed.

(** Past the end of a fixed collection every further [__next__] signals
    the end again, and each of them sends one more request. *)
Lemma next_past_end (o : Z) (tot : option Z) (w : world unit) :
  N <= o ->
  exists w',
    Result.__next__ (idle o tot, w) = (inl StopIteration, (idle (o + L) (Some N), w')) /\
    requested w w' [o].
Proof.
  intros Hge. rewrite next_idle by reflexivity. unfold fetch_page.
  cbn [_requests offset limit _query_params].
  rewrite paging_list, (window_nil o Hge).
  eexists. split; [reflexivity|].
  eapply requested_step; [reflexivity|]. apply effective_query_reserved.
Qed.

(** C1. Against the paging service, with a page size of at least 1,
    iterating a fresh [Result] that starts at offset 0 until it signals the
    end yields the [N] entities of the collection, in the order of the
    service, and sends [ceil(N / limit) + 1] requests, at the offsets
    [0], [limit], [2 * limit], ...; every page but the last is non-empty
    and the last one is empty. *)
Theorem exhaust_yields_collection (w : world unit) (fuel : nat) :
  (length rows < fuel)%nat ->
  exists r' w',
    Result.exhaust fuel [] (Result.__init__ 0 L qp crud, w) = Some (inr ents, (r', w')) /\
    length ents = length rows /\
    length (requests (trace w')) = (length (requests (trace w)) + (pages N L + 1))%nat /\
    Z.of_nat (pages N L) = ceil_div N L /\
    requested_offsets (trace w') =
      requested_offsets (trace w) ++ page_offsets 0 L (pages N L + 1) /\
    (forall i : nat, (i < pages N L)%nat -> window (Z.of_nat i * L) L ents <> []) /\
    window (Z.of_nat (pages N L) * L) L ents = [].
Proof.
  intros Hfuel.
  destruct (exhaust_idle (length rows) 0 None [] w (fuel - Datatypes.S (length rows)))
    as (w' & Hex & Hlen & Hoff); [lia | nia |].
  change (Z.to_nat 0) with 0%nat in Hex. rewrite drop_0 in Hex. cbn [app] in Hex.
  replace (length ents + Datatypes.S (fuel - Datatypes.S (length rows)))%nat with fuel in Hex
    by (rewrite ents_length; lia).
  rewrite Z.sub_0_r in *. unfold page_offsets in Hlen at 1.
  rewrite length_fmap, length_seq in Hlen.
  assert (Hceil : 0 <= ceil_div N L) by (apply Z.div_pos; lia).
  assert (Hlow : (ceil_div N L - 1) * L < N /\ N <= ceil_div N L * L).
  { unfold ceil_div. pose proof (Z.div_mod (N + L - 1) L ltac:(lia)) as Hdm.
    pose proof (Z.mod_pos_bound (N + L - 1) L ltac:(lia)). nia. }
  eexists _, w'. split; [exact Hex|]. split; [apply ents_length|].
  split; [rewrite Hlen; lia|]. split; [unfold pages; lia|].
  split; [by rewrite Nat.add_1_r|]. split.
  - intros i Hi. apply window_nonempty. unfold pages in Hi. nia.
  - apply window_nil. unfold pages. rewrite Z2Nat.id by lia. lia.
Qed.

End paging.

(** ** The claims at concrete inputs *)

Lemma rows5_construct : Forall2 (constructs_to keep_fields) rows5 rows5.
Proof.
  repeat constructor; cbn; by intros [=]%list_elem_of_singleton.
Defined.

Lemma exhaust_yields_collection_witness :
  exists st,
    Result.exhaust 6 [] (Result.__init__ 0 2 (Some 1%positive) (paging_crud rows5),
                         filter_world) = Some (inr rows5, st) /\
    length (requests (trace st.2)) = 4%nat /\
    requested_offsets (trace st.2) = [0; 2; 4; 6].
Proof.
  destruct (exhaust_yields_collection rows5 rows5 keep_fields "/projects"
              rows5_construct 2 ltac:(lia) (Some 1%positive) filter_world 6)
    as (r' & w' & Hex & _ & Hlen & _ & Hoff & _).
  - cbn. lia.
  - exists (r', w'). split; [exact Hex|]. split; [exact Hlen | exact Hoff].
Defined.

Lemma list_reserved_keys_win_witness :
  exists q ks,
    trace (CRUDClient.list (paging_crud rows5) 2 2 (Some 1%positive) filter_world).2 =
      [EvGet "/projects" (Some q)] ++ (EvConstruct <$> ks) /\
    q !! "limit" = Some "2" /\ q !! "name" = Some "x".
Proof.
  destruct (list_reserved_keys_win (paging_crud rows5) 2 2 (Some 1%positive) filter_world)
    as (q & ks & Ht & _ & Hl & _ & _ & Hk).
  exists q, ks. split; [exact Ht|]. split; [exact Hl|].
  rewrite Hk; [reflexivity|].
  unfold reserved_keys. rewrite !not_elem_of_cons. repeat split; try discriminate.
  apply not_elem_of_nil.
Defined.

Lemma len_twice_one_request_witness :
  let st0 := (Result.__init__ 0 2 None (paging_crud rows5), empty_world) in
  exists st,
    Result.len st0 = (inr 5, st) /\ Result.len st = (inr 5, st) /\
    length (requests (trace st.2)) = 1%nat.
Proof.
  cbn zeta.
  destruct (Result.len (Result.__init__ 0 2 None (paging_crud rows5), empty_world))
    as [res st] eqn:Hlen.
  assert (Hres : res = inr 5).
  { apply (f_equal fst) in Hlen. vm_compute in Hlen. symmetry. exact Hlen. }
  subst res. exists st.
  destruct (len_twice_one_request
              (Result.__init__ 0 2 None (paging_crud rows5)) empty_world 5 st
              eq_refl Hlen) as [H2 Hreq].
  split; [reflexivity|]. split; [exact H2|]. by rewrite Hreq.
Defined.


Lemma fetch_atomic_on_error_witness :
  let r := mkResult [] 2 4 (Some 5) None failing_crud in
  exists w', Result.__next__ (r, empty_world) = (inl (ClientError 500), (r, w')).
Proof.
  cbn zeta. eexists.
  apply (proj1 (fetch_atomic_on_error (mkResult [] 2 4 (Some 5) None failing_crud)
                                      empty_world)).
  - reflexivity.
  - reflexivity.
Defined.


Lemma list_mutates_query_params_witness :
  let r := Result.__init__ 4 2 (Some 1%positive) (paging_crud rows5) in
  holds_reserved (heap (CRUDClient.list (paging_crud rows5) 0 10 (Some 1%positive)
                                        filter_world).2) 1%positive 0 10 /\
  holds_reserved (heap (Result.__next__ (r, filter_world)).2.2) 1%positive 4 2 /\
  holds_reserved (heap (Result.__len__ (r, filter_world)).2.2) 1%positive 0 0.
Proof.
  cbn zeta.
  destruct (list_mutates_query_params
              (Result.__init__ 4 2 (Some 1%positive) (paging_crud rows5)) filter_world
              1%positive {[ "name" := "x"; "limit" := "99" ]})
    as (Hl & Hn & Hc).
  - reflexivity.
  - reflexivity.
  - intros Hempty. apply (f_equal (fun d : gmap string string => d !! "name")) in Hempty.
    vm_compute in Hempty. discriminate.
  - split; [apply (Hl 0 10)|]. split; [apply Hn | apply Hc]; reflexivity.
Defined.


(** C4 fails on the code: on a fresh [Result] over an empty collection
    [is_empty] answers [False] and sends no request, although the size
    query reports a total of 0. *)
Theorem is_empty_fresh_result :
  let st := (Result.__init__ 0 10 None (paging_crud []), empty_world) in
  Result.is_empty st = (inr false, st) /\
  (Result.len st).1 = inr 0.
Proof. split; [reflexivity | by vm_compute]. Qed.

(** * Further properties of the module *)

(** ** [CRUDClient.get] and [CRUDClient.list] *)

Lemma constructions_app (tr1 tr2 : list event) :
  constructions (tr1 ++ tr2) = constructions tr1 ++ constructions tr2.
Proof. apply omap_app. Qed.

Lemma constructions_constructs (rows : list (list (string * json))) :
  constructions (EvConstruct <$> rows) = rows.
Proof. induction rows; [reflexivity | cbn; f_equal; assumption]. Qed.

Section crud_client_more.
Context {S T : Type}.
Implicit Types (self : CRUDClient S T) (w : world S).

Lemma get_eq self (entity_id : string) w :
  CRUDClient.get self entity_id w =
  let path := _base_url self +:+ "/" +:+ entity_id in
  let '(r, s') := client_get (_client self) path None (remote w) in
  let w' := mkWorld (heap w) s' (trace w ++ [EvGet path None]) in
  match r with
  | inr response =>
      match body response with
      | Some (JObj fields) =>
          if bool_decide ("client" ∈ fields.*1) then (inl TypeError, w')
          else (_constructor self fields,
                mkWorld (heap w) s' (trace w ++ [EvGet path None; EvConstruct fields]))
      | Some _ => (inl TypeError, w')
      | None => (inl JSONDecodeError, w')
      end
  | inl e => (inl e, w')
  end.
Proof.
  unfold CRUDClient.get, bind at 1, http_get. cbv zeta.
  destruct (client_get _ _ _ _) as [[e|response] s']; [reflexivity|].
  unfold bind at 1, Response_json.
  destruct (body response) as [[| | | | |fields]|]; try reflexivity.
  cbn. case_bool_decide; [reflexivity|].
  unfold bind, log, modify, lift_result. cbn. by rewrite <- app_assoc.
Qed.

(** X1. Whatever the outcome, [get] sends exactly one request, to
    [base_url/entity_id] and without query parameters, leaves every
    dictionary on the heap alone, and calls the factory at most once. *)
Theorem get_one_request self (entity_id : string) w :
  let out := CRUDClient.get self entity_id w in
  heap out.2 = heap w /\
  requests (trace out.2) =
    requests (trace w) ++ [(_base_url self +:+ "/" +:+ entity_id, None)] /\
  (length (constructions (trace out.2)) <= length (constructions (trace w)) + 1)%nat.
Proof.
  cbv zeta. rewrite get_eq. cbv zeta.
  destruct (client_get _ _ _ _) as [[e|response] s']; cbn.
  { rewrite requests_app, constructions_app, length_app. cbn.
    repeat split; lia. }
  destruct (body response) as [[| | | | |fields]|]; cbn;
    try (rewrite requests_app, constructions_app, length_app; cbn;
         repeat split; lia).
  case_bool_decide; cbn; rewrite requests_app, constructions_app, length_app; cbn;
    repeat split; lia.
Qed.

(** X2. When the body of the response cannot be decoded [get] raises
    [JSONDecodeError]; when it decodes to anything but an object, or to an
    object that carries a [client] key, [get] raises [TypeError].  The
    factory is not called in any of these cases. *)
Theorem get_rejects_body self (entity_id : string) w response s' :
  let path := _base_url self +:+ "/" +:+ entity_id in
  client_get (_client self) path None (remote w) = (inr response, s') ->
  match body response with
  | Some (JObj fields) => "client" ∈ fields.*1
  | _ => True
  end ->
  CRUDClient.get self entity_id w =
  (inl (match body response with None => JSONDecodeError | Some _ => TypeError end),
   mkWorld (heap w) s' (trace w ++ [EvGet path None])).
Proof.
  intros path Hget Hbody. rewrite get_eq. cbv zeta. fold path. rewrite Hget.
  destruct (body response) as [[| | | | |fields]|]; try reflexivity.
  by rewrite bool_decide_eq_true_2.
Qed.

(** X3. [list] leaves the heap as it is when it is called without query
    parameters or with an empty dictionary: the reserved keys go into a
    fresh dictionary, and the caller's empty one stays empty. *)
Theorem list_keeps_empty_params self offset limit query_params w :
  caller_params w query_params = ∅ ->
  heap (CRUDClient.list self offset limit query_params w).2 = heap w.
Proof.
  intros Hempty.
  destruct (CRUDClient.list self offset limit query_params w) as [r w'] eqn:E.
  apply list_world in E as [Hh _]. cbn. rewrite Hh. unfold heap_after.
  destruct query_params; [|done]. by rewrite bool_decide_eq_true_2.
Qed.

(** X4. On the heap, [list] touches nothing but the caller's dictionary,
    and in it nothing but the four reserved keys. *)
Theorem list_heap_frame self offset limit query_params w :
  let w' := (CRUDClient.list self offset limit query_params w).2 in
  (forall l : loc, query_params <> Some l -> heap w' !! l = heap w !! l) /\
  (forall k : string,
      k ∉ reserved_keys ->
      caller_params w' query_params !! k = caller_params w query_params !! k).
Proof.
  cbv zeta.
  destruct (CRUDClient.list self offset limit query_params w) as [r w'] eqn:E.
  apply list_world in E as [Hh _]. cbn. unfold caller_params. rewrite Hh.
  unfold heap_after. destruct query_params as [l0|]; [|done].
  case_bool_decide as Hd; [done|]. split.
  - intros l Hl. apply lookup_insert_ne. congruence.
  - intros k Hk. rewrite lookup_insert_eq. cbn.
    exact (effective_query_other w (Some l0) offset limit k Hk).
Qed.

(** X5. An error raised by the client leaves [list] as it is: no header is
    read and no entity is constructed.  The caller's dictionary has been
    updated by then. *)
Theorem list_client_error self offset limit query_params w e s' :
  let q := effective_query w query_params offset limit in
  client_get (_client self) (_base_url self) (Some q) (remote w) = (inl e, s') ->
  CRUDClient.list self offset limit query_params w =
  (inl e, mkWorld (heap_after w query_params offset limit) s'
                  (trace w ++ [EvGet (_base_url self) (Some q)])).
Proof. intros q Hget. subst q. rewrite list_eq. cbv zeta. by rewrite Hget. Qed.

Lemma mapM_construct_ok self (rs : list (list (string * json))) (ts : list T) w :
  Forall2 (constructs_to (_constructor self)) rs ts ->
  mapM (CRUDClient.construct self) (JObj <$> rs) w =
  (inr ts, mkWorld (heap w) (remote w) (trace w ++ (EvConstruct <$> rs))).
Proof.
  intros H. revert w. induction H as [|row t rs ts [Hc Hr] _ IH]; intros w.
  { cbn. rewrite app_nil_r. by destruct w. }
  cbn. unfold bind at 1. cbn.
  rewrite bool_decide_eq_false_2 by done.
  unfold bind at 1, log, modify, lift_result. cbn. rewrite Hr.
  unfold bind at 1. rewrite IH. cbn. by rewrite <- app_assoc.
Qed.

Lemma mapM_construct_fails self (rs : list (list (string * json))) (ts : list T)
    (row : list (string * json)) (rest : list json) (e : exn) w :
  Forall2 (constructs_to (_constructor self)) rs ts ->
  "client" ∉ row.*1 -> _constructor self row = inl e ->
  mapM (CRUDClient.construct self) ((JObj <$> rs) ++ JObj row :: rest) w =
  (inl e, mkWorld (heap w) (remote w) (trace w ++ (EvConstruct <$> rs ++ [row]))).
Proof.
  intros H Hc He. revert w. induction H as [|row' t rs ts [Hc' Hr] _ IH]; intros w.
  { cbn. unfold bind at 1. cbn. rewrite bool_decide_eq_false_2 by done.
    unfold bind at 1, log, modify, lift_result. cbn. by rewrite He. }
  cbn. unfold bind at 1. cbn.
  rewrite bool_decide_eq_false_2 by done.
  unfold bind at 1, log, modify, lift_result. cbn. rewrite Hr.
  unfold bind at 1. rewrite IH. cbn. by rewrite <- app_assoc.
Qed.

Lemma read_page_eq self response (n : Z) (j : json) w :
  headers response !! "x-total-count" ≫= Py.int = Some n ->
  body response = Some j ->
  read_page self response w =
  (let* items := iter_json j in
   let* entities := mapM (CRUDClient.construct self) items in
   ret (entities, n))%py w.
Proof.
  intros Hh Hb. unfold read_page, bind at 1, CRUDClient.total_count.
  destruct (headers response !! "x-total-count") as [v|]; [|done]. cbn in Hh.
  rewrite Hh. cbn. unfold bind at 1, Response_json. by rewrite Hb.
Qed.

(** X6. When the response carries a readable total and an array of objects
    that the factory accepts, [list] returns the entities in the order of
    the response together with the total, and has called the factory once
    per object, in that order. *)
Theorem list_response_order self offset limit query_params w response s'
    (n : Z) (rows : list (list (string * json))) (ents : list T) :
  let q := effective_query w query_params offset limit in
  client_get (_client self) (_base_url self) (Some q) (remote w) = (inr response, s') ->
  headers response !! "x-total-count" ≫= Py.int = Some n ->
  body response = Some (JArr (JObj <$> rows)) ->
  Forall2 (constructs_to (_constructor self)) rows ents ->
  CRUDClient.list self offset limit query_params w =
  (inr (ents, n),
   mkWorld (heap_after w query_params offset limit) s'
           (trace w ++ EvGet (_base_url self) (Some q) :: (EvConstruct <$> rows))).
Proof.
  intros q Hget Hh Hb Hrows. subst q. rewrite list_eq. cbv zeta. rewrite Hget.
  rewrite (read_page_eq _ _ _ _ _ Hh Hb). unfold bind at 1. cbn [iter_json].
  unfold ret at 1. unfold bind at 1.
  rewrite (mapM_construct_ok _ _ _ _ Hrows). cbn. by rewrite <- app_assoc.
Qed.

(** X7. [list] stops at the first object the factory refuses: it raises the
    factory's error, has called the factory on the objects up to and
    including that one, and on none after it. *)
Theorem list_first_failure self offset limit query_params w response s'
    (n : Z) (rows : list (list (string * json))) (ents : list T)
    (row : list (string * json)) (rest : list json) (e : exn) :
  let q := effective_query w query_params offset limit in
  client_get (_client self) (_base_url self) (Some q) (remote w) = (inr response, s') ->
  headers response !! "x-total-count" ≫= Py.int = Some n ->
  body response = Some (JArr ((JObj <$> rows) ++ JObj row :: rest)) ->
  Forall2 (constructs_to (_constructor self)) rows ents ->
  "client" ∉ row.*1 -> _constructor self row = inl e ->
  CRUDClient.list self offset limit query_params w =
  (inl e,
   mkWorld (heap_after w query_params offset limit) s'
           (trace w ++ EvGet (_base_url self) (Some q)
                    :: (EvConstruct <$> rows ++ [row]))).
Proof.
  intros q Hget Hh Hb Hrows Hc He. subst q. rewrite list_eq. cbv zeta. rewrite Hget.
  rewrite (read_page_eq _ _ _ _ _ Hh Hb). unfold bind at 1. cbn [iter_json].
  unfold ret at 1. unfold bind at 1.
  rewrite (mapM_construct_fails _ _ _ _ _ _ _ Hrows Hc He). cbn.
  by rewrite <- app_assoc.
Qed.

(** X8. A body that is not an array: the empty object and the empty string
    count as an empty page, and [list] returns no entities with the total;
    every other value makes [list] raise [TypeError].  The factory is not
    called. *)
Theorem list_non_array_body self offset limit query_params w response s'
    (n : Z) (j : json) :
  let q := effective_query w query_params offset limit in
  client_get (_client self) (_base_url self) (Some q) (remote w) = (inr response, s') ->
  headers response !! "x-total-count" ≫= Py.int = Some n ->
  body response = Some j ->
  is_array j = false ->
  CRUDClient.list self offset limit query_params w =
  (if empty_iterable j then inr ([], n) else inl TypeError,
   mkWorld (heap_after w query_params offset limit) s'
           (trace w ++ [EvGet (_base_url self) (Some q)])).
Proof.
  intros q Hget Hh Hb Harr. subst q. rewrite list_eq. cbv zeta. rewrite Hget.
  rewrite (read_page_eq _ _ _ _ _ Hh Hb).
  destruct j as [| | |s|items|fields]; try reflexivity; try discriminate.
  - destruct s; reflexivity.
  - destruct fields as [|[k v] fields]; reflexivity.
Qed.

End crud_client_more.

(** ** [Result] *)

Section result_more.
Context {S T : Type}.
Implicit Types (r : Result S T) (w : world S).

(** X11. Buffered entities come out first in, first out, and without any
    call to the repository: as many [next] calls as there are buffered
    entities return them in order and leave the world as it is. *)
Theorem next_drains_buffer (xs rest : list T) :
  forall r w,
    _data r = xs ++ rest ->
    Result.next_n (length xs) (r, w) = (inr xs, (Result.set_data rest r, w)).
Proof.
  induction xs as [|x xs IH]; intros r w Hd.
  - cbn. destruct r; cbn in *; by subst.
  - cbn [length Result.next_n]. rewrite (next_buffered _ _ x (xs ++ rest)) by exact Hd.
    by rewrite (IH (Result.set_data (xs ++ rest) r) w).
Qed.

(** X12. [__next__] never changes the page size, the stored query
    parameters or the repository, and it leaves the offset where it is or
    moves it forward by exactly [limit]. *)
Theorem next_keeps_configuration r w :
  let r' := (Result.__next__ (r, w)).2.1 in
  limit r' = limit r /\ _query_params r' = _query_params r /\
  _requests r' = _requests r /\
  (offset r' = offset r \/ offset r' = offset r + limit r).
Proof.
  cbv zeta. destruct (_data r) as [|x rest] eqn:Hd.
  - rewrite (next_idle _ _ Hd).
    destruct (fetch_page r w) as [[e|[[|y page] total]] w']; cbn; auto.
  - rewrite (next_buffered _ _ _ _ Hd). cbn. auto.
Qed.

(** X13. [popleft] is never reached with an empty buffer: [__next__] raises
    [IndexError] only if the page request itself raised it. *)
Theorem next_index_error r w :
  (Result.__next__ (r, w)).1 = inl IndexError ->
  _data r = [] /\ (fetch_page r w).1 = inl IndexError.
Proof.
  destruct (_data r) as [|x rest] eqn:Hd.
  - rewrite (next_idle _ _ Hd).
    destruct (fetch_page r w) as [[e|[[|y page] total]] w']; cbn;
      intros H; try discriminate H. injection H as ->. by split.
  - by rewrite (next_buffered _ _ _ _ Hd).
Qed.

(** X14. An empty page is not free of effects: before [__next__] signals
    the end of the sequence it has moved the offset forward by [limit] and
    stored the total that came with the page. *)
Theorem next_empty_page r w (total : Z) w' :
  _data r = [] ->
  fetch_page r w = (inr ([], total), w') ->
  Result.__next__ (r, w) =
  (inl StopIteration,
   (mkResult [] (limit r) (offset r + limit r) (Some total)
             (_query_params r) (_requests r), w')).
Proof.
  intros Hd Hf. rewrite (next_idle _ _ Hd), Hf. unfold fetched. by rewrite Hd.
Qed.

(** X15. Every page refreshes the total: after a [__next__] that fetched a
    page, [len] returns the total that came with that page, whatever was
    memoized before, and sends no request. *)
Theorem next_then_len r w (x : T) (rest : list T) (total : Z) w' :
  _data r = [] ->
  fetch_page r w = (inr (x :: rest, total), w') ->
  0 <= total < 2 ^ 63 ->
  let st := (Result.__next__ (r, w)).2 in
  Result.len st = (inr total, st).
Proof.
  intros Hd Hf Ht. cbv zeta. rewrite (next_idle _ _ Hd), Hf. cbn [snd].
  unfold Result.len, bind. rewrite (len_known _ _ total) by reflexivity.
  destruct (total <? 0)%Z eqn:Hneg; [lia|].
  destruct (2 ^ 63 <=? total)%Z eqn:Hbig; [lia|]. reflexivity.
Qed.

(** X16. A [__len__] that returns has an integer to return, and from then
    on [is_empty] answers whether that integer is 0, without a request. *)
Theorem len_then_is_empty r w (v : option Z) st :
  Result.__len__ (r, w) = (inr v, st) ->
  exists n : Z,
    v = Some n /\ Result.is_empty st = (inr (bool_decide (n = 0)), st).
Proof.
  destruct (_total r) as [m|] eqn:Ht.
  - rewrite (len_known _ _ m Ht). intros [= <- <-]. exists m. split; [done|].
    rewrite is_empty_eq, Ht. do 2 f_equal. apply bool_decide_ext. naive_solver.
  - rewrite (len_unknown _ _ Ht).
    destruct (fetch_count r w) as [[e|[entities total]] w']; [done|].
    intros [= <- <-]. exists total. split; [done|].
    rewrite is_empty_eq. cbn. do 2 f_equal. apply bool_decide_ext. naive_solver.
Qed.

(** X17. A failed page request can be retried: the object is as before, so
    the next [__next__] asks for the same page again. *)
Theorem next_retry_same_page r w (e : exn) w' :
  _data r = [] ->
  fetch_page r w = (inl e, w') ->
  let st := (Result.__next__ (r, w)).2 in
  exists q ks,
    trace (Result.__next__ st).2.2 =
      trace w' ++ EvGet (_base_url (_requests r)) (Some q) :: (EvConstruct <$> ks) /\
    q !! "offset" = Some (Py.str (offset r)) /\
    q !! "limit" = Some (Py.str (limit r)).
Proof.
  intros Hd Hf. cbv zeta. rewrite (next_idle _ _ Hd), Hf. cbn [snd].
  rewrite (next_idle _ _ Hd).
  destruct (fetch_page r w') as [res w2] eqn:Hf2.
  apply list_world in Hf2 as (_ & ks & Htr).
  exists (effective_query w' (_query_params r) (offset r) (limit r)), ks.
  pose proof (effective_query_reserved w' (_query_params r) (offset r) (limit r))
    as (Ho & Hl & _).
  split; [|split; [exact Ho | exact Hl]].
  by destruct res as [e'|[[|y page] total]].
Qed.

End result_more.

(** ** More on pagination over the paging service *)

Section paging_more.
Context {T : Type}.
Variable rows : list (list (string * json)).
Variable ents : list T.
Variable ctor : list (string * json) -> exn + T.
Variable base : string.
Hypothesis rows_construct : Forall2 (constructs_to ctor) rows ents.
Variable qp : option loc.

Local Abbreviation crud := (mkCRUDClient (paging_service rows) base ctor).
Local Abbreviation N := (Z.of_nat (length rows)).

(** X18. A page size of 0 yields nothing: the first page is empty whatever
    the collection holds, so the loop ends at once, after one request, and
    the offset has not moved. *)
Theorem exhaust_limit_zero (o : Z) (w : world unit) (fuel : nat) :
  (0 < fuel)%nat ->
  exists w',
    Result.exhaust fuel [] (Result.__init__ o 0 qp crud, w) =
      Some (inr [], (mkResult [] 0 o (Some N) qp crud, w')) /\
    requested w w' [o].
Proof.
  intros Hfuel. destruct fuel as [|fuel]; [lia|]. cbn [Result.exhaust].
  rewrite next_idle by reflexivity. unfold fetch_page, Result.__init__.
  cbn [_requests offset limit _query_params].
  rewrite (paging_list rows ents ctor base rows_construct).
  change (window o 0 ents) with (@nil T).
  eexists. split.
  - unfold fetched. cbn [_data limit offset _query_params _requests app].
    by rewrite Z.add_0_r.
  - eapply requested_step; [reflexivity|]. apply effective_query_reserved.
Qed.

Variable L : Z.
Hypothesis L_pos : 1 <= L.

Lemma pages_cover (n : Z) : 0 <= n -> n <= Z.of_nat (pages n L) * L.
Proof.
  intros Hn. unfold pages, ceil_div.
  assert (0 <= (n + L - 1) / L) by (apply Z.div_pos; lia).
  rewrite Z2Nat.id by lia.
  pose proof (Z.div_mod (n + L - 1) L ltac:(lia)).
  pose proof (Z.mod_pos_bound (n + L - 1) L ltac:(lia)). nia.
Qed.

(** X19. Iteration resumes where the object stands: from a state with
    buffered entities [b] and offset [o] the loop yields [b] followed by
    the collection from [o] on, and asks for the pages at [o], [o + L],
    ... up to the first empty one.  In particular a [Result] created with
    a start offset skips that many entities. *)
Theorem exhaust_resumes (b : list T) (o : Z) (tot : option Z)
    (w : world unit) (fuel : nat) :
  0 <= o ->
  (length b + length (drop (Z.to_nat o) ents) < fuel)%nat ->
  exists r' w',
    Result.exhaust fuel [] (mkResult b L o tot qp crud, w) =
      Some (inr (b ++ drop (Z.to_nat o) ents), (r', w')) /\
    requested w w' (page_offsets o L (Datatypes.S (pages (N - o) L))).
Proof.
  intros Ho Hfuel.
  replace fuel with
    (length b + (length (drop (Z.to_nat o) ents) +
                 Datatypes.S (fuel - Datatypes.S (length b + length (drop (Z.to_nat o) ents)))))%nat
    by lia.
  rewrite (exhaust_buffered b) by reflexivity. cbn [app].
  destruct (exhaust_idle rows ents ctor base rows_construct L L_pos qp
              (length rows) o tot b w
              (fuel - Datatypes.S (length b + length (drop (Z.to_nat o) ents))))
    as (w' & Hex & Hreq); [lia | nia |].
  eexists _, w'. split; [exact Hex | exact Hreq].
Qed.

(** X20. A [Result] is single-pass: [__iter__] hands back the same cursor,
    so a second loop over an exhausted [Result] yields nothing; it sends
    one more request and gets the empty page past the end. *)
Theorem exhaust_twice (w : world unit) (fuel fuel2 : nat) :
  (length rows < fuel)%nat -> (0 < fuel2)%nat ->
  exists st1 st2,
    Result.exhaust fuel [] (Result.__init__ 0 L qp crud, w) = Some (inr ents, st1) /\
    Result.exhaust fuel2 [] (Result.__iter__ st1.1, st1.2) = Some (inr [], st2) /\
    length (requests (trace st2.2)) = Datatypes.S (length (requests (trace st1.2))).
Proof.
  intros Hfuel Hfuel2.
  destruct (exhaust_idle rows ents ctor base rows_construct L L_pos qp
              (length rows) 0 None [] w (fuel - Datatypes.S (length rows)))
    as (w1 & Hex & _); [lia | nia |].
  change (Z.to_nat 0) with 0%nat in Hex. rewrite drop_0 in Hex. cbn [app] in Hex.
  replace (length ents + Datatypes.S (fuel - Datatypes.S (length rows)))%nat with fuel in Hex
    by (rewrite (ents_length rows ents ctor rows_construct); lia).
  rewrite Z.sub_0_r in Hex.
  destruct (next_past_end rows ents ctor base rows_construct L qp
              (0 + Z.of_nat (Datatypes.S (pages N L)) * L) (Some N) w1)
    as (w2 & Hnext & Hlen & _).
  { pose proof (pages_cover N ltac:(lia)). lia. }
  eexists _, (_, w2). split; [exact Hex|]. split.
  - destruct fuel2 as [|fuel2]; [lia|]. cbn [Result.exhaust fst snd].
    unfold Result.__iter__. by rewrite Hnext.
  - cbn [fst snd]. rewrite Hlen. cbn. lia.
Qed.

(** X21. Asking for the size first does not disturb the iteration: on a
    fresh [Result], [len] returns the size of the collection and leaves the
    buffer empty and the offset at its start, and a loop that follows
    still yields the whole collection. *)
Theorem len_then_exhaust (w : world unit) (fuel : nat) :
  N < 2 ^ 63 -> (length rows < fuel)%nat ->
  exists st1 st2,
    Result.len (Result.__init__ 0 L qp crud, w) = (inr N, st1) /\
    _data st1.1 = [] /\ offset st1.1 = 0 /\
    Result.exhaust fuel [] st1 = Some (inr ents, st2).
Proof.
  intros HN Hfuel. unfold Result.len, bind.
  rewrite len_unknown by reflexivity. unfold fetch_count, Result.__init__.
  cbn [_requests _query_params].
  rewrite (paging_list rows ents ctor base rows_construct).
  destruct (N <? 0)%Z eqn:Hneg; [lia|].
  destruct (2 ^ 63 <=? N)%Z eqn:Hbig; [lia|].
  set (w1 := mkWorld _ _ _).
  destruct (exhaust_idle rows ents ctor base rows_construct L L_pos qp
              (length rows) 0 (Some N) [] w1 (fuel - Datatypes.S (length rows)))
    as (w2 & Hex & _); [lia | nia |].
  change (Z.to_nat 0) with 0%nat in Hex. rewrite drop_0 in Hex. cbn [app] in Hex.
  replace (length ents + Datatypes.S (fuel - Datatypes.S (length rows)))%nat with fuel in Hex
    by (rewrite (ents_length rows ents ctor rows_construct); lia).
  eexists _, _. split; [reflexivity|]. cbn [fst snd].
  split; [reflexivity|]. split; [reflexivity|]. exact Hex.
Qed.

End paging_more.

(** ** The further properties at concrete inputs *)

Lemma get_rejects_body_witness :
  let crud := mkCRUDClient (fixed_client (mkResponse 200 ∅ (Some (JArr []))))
                           "/projects" keep_fields in
  (CRUDClient.get crud "abc" empty_world).1 = inl TypeError.
Proof.
  cbn zeta.
  rewrite (get_rejects_body
             (mkCRUDClient (fixed_client (mkResponse 200 ∅ (Some (JArr []))))
                           "/projects" keep_fields)
             "abc" empty_world (mkResponse 200 ∅ (Some (JArr []))) tt).
  - reflexivity.
  - reflexivity.
  - exact I.
Defined.

Lemma list_keeps_empty_params_witness :
  heap (CRUDClient.list (paging_crud rows5) 0 2 (Some 1%positive) empty_params_world).2
  = {[ 1%positive := ∅ ]}.
Proof.
  apply (list_keeps_empty_params (paging_crud rows5) 0 2 (Some 1%positive)
                                 empty_params_world).
  reflexivity.
Defined.

Lemma name_not_reserved : "name" ∉ @reserved_keys.
Proof.
  unfold reserved_keys. rewrite !not_elem_of_cons. repeat split; try discriminate.
  apply not_elem_of_nil.
Defined.

Lemma list_heap_frame_witness :
  caller_params (CRUDClient.list (paging_crud rows5) 0 2 (Some 1%positive) filter_world).2
                (Some 1%positive) !! "name" = Some "x" /\
  heap (CRUDClient.list (paging_crud rows5) 0 2 (Some 1%positive) filter_world).2
    !! 2%positive = None.
Proof.
  destruct (list_heap_frame (paging_crud rows5) 0 2 (Some 1%positive) filter_world)
    as [Hother Hkeys].
  split.
  - etrans; [exact (Hkeys "name" name_not_reserved) | reflexivity].
  - etrans; [apply (Hother 2%positive); discriminate | reflexivity].
Defined.

Lemma list_client_error_witness :
  (CRUDClient.list failing_crud 0 2 None empty_world).1 = inl (ClientError 500).
Proof.
  rewrite (list_client_error failing_crud 0 2 None empty_world (ClientError 500) tt).
  - reflexivity.
  - reflexivity.
Defined.

Lemma list_response_order_witness :
  (CRUDClient.list (paging_crud rows5) 0 2 None empty_world).1 =
  inr ([[("id", JNum 1)]; [("id", JNum 2)]], 5).
Proof.
  rewrite (list_response_order (paging_crud rows5) 0 2 None empty_world
             (paging_response rows5 0 2) tt 5
             [[("id", JNum 1)]; [("id", JNum 2)]]
             [[("id", JNum 1)]; [("id", JNum 2)]]).
  - reflexivity.
  - reflexivity.
  - reflexivity.
  - reflexivity.
  - repeat constructor; cbn; by intros [=]%list_elem_of_singleton.
Defined.

Lemma list_first_failure_witness :
  let response :=
    mkResponse 200 {[ "x-total-count" := "3" ]}
      (Some (JArr [JObj [("id", JNum 1)]; JObj [("name", JStr "x")];
                   JObj [("id", JNum 3)]])) in
  let crud := mkCRUDClient (fixed_client response) "/projects" needs_id in
  let out := CRUDClient.list crud 0 10 None empty_world in
  out.1 = inl (ConstructorError "id") /\
  constructions (trace out.2) = [[("id", JNum 1)]; [("name", JStr "x")]].
Proof.
  cbn zeta.
  rewrite (list_first_failure
             (mkCRUDClient
                (fixed_client
                   (mkResponse 200 {[ "x-total-count" := "3" ]}
                      (Some (JArr [JObj [("id", JNum 1)]; JObj [("name", JStr "x")];
                                   JObj [("id", JNum 3)]]))))
                "/projects" needs_id)
             0 10 None empty_world
             (mkResponse 200 {[ "x-total-count" := "3" ]}
                (Some (JArr [JObj [("id", JNum 1)]; JObj [("name", JStr "x")];
                             JObj [("id", JNum 3)]])))
             tt 3 [[("id", JNum 1)]] [[("id", JNum 1)]]
             [("name", JStr "x")] [JObj [("id", JNum 3)]] (ConstructorError "id")).
  - split; reflexivity.
  - reflexivity.
  - reflexivity.
  - reflexivity.
  - repeat constructor; cbn; by intros [=]%list_elem_of_singleton.
  - cbn. by intros [=]%list_elem_of_singleton.
  - reflexivity.
Defined.

Lemma list_non_array_body_witness :
  let response := mkResponse 200 {[ "x-total-count" := "3" ]} (Some (JObj [])) in
  let crud := mkCRUDClient (fixed_client response) "/projects" keep_fields in
  (CRUDClient.list crud 0 10 None empty_world).1 = inr ([], 3).
Proof.
  cbn zeta.
  rewrite (list_non_array_body
             (mkCRUDClient
                (fixed_client (mkResponse 200 {[ "x-total-count" := "3" ]} (Some (JObj []))))
                "/projects" keep_fields)
             0 10 None empty_world
             (mkResponse 200 {[ "x-total-count" := "3" ]} (Some (JObj []))) tt 3 (JObj [])).
  - reflexivity.
  - reflexivity.
  - reflexivity.
  - reflexivity.
  - reflexivity.
Defined.

Lemma next_drains_buffer_witness :
  let r := mkResult [[("id", JNum 1)]; [("id", JNum 2)]; [("id", JNum 3)]]
                    2 4 (Some 5) None failing_crud in
  Result.next_n 2 (r, empty_world) =
  (inr [[("id", JNum 1)]; [("id", JNum 2)]],
   (mkResult [[("id", JNum 3)]] 2 4 (Some 5) None failing_crud, empty_world)).
Proof.
  cbn zeta.
  apply (next_drains_buffer [[("id", JNum 1)]; [("id", JNum 2)]] [[("id", JNum 3)]]).
  reflexivity.
Defined.

Lemma next_index_error_witness :
  let crud := mkCRUDClient (raising_client IndexError) "/projects" keep_fields in
  let r := Result.__init__ 0 2 None crud in
  (fetch_page r empty_world).1 = inl IndexError.
Proof.
  cbn zeta.
  apply (next_index_error
           (Result.__init__ 0 2 None
              (mkCRUDClient (raising_client IndexError) "/projects" keep_fields))
           empty_world).
  reflexivity.
Defined.

Lemma next_empty_page_witness :
  let r := Result.__init__ 0 2 None (paging_crud []) in
  let out := Result.__next__ (r, empty_world) in
  out.1 = inl StopIteration /\ offset out.2.1 = 2 /\ _total out.2.1 = Some 0.
Proof.
  cbn zeta.
  rewrite (next_empty_page (Result.__init__ 0 2 None (paging_crud [])) empty_world 0
             (fetch_page (Result.__init__ 0 2 None (paging_crud [])) empty_world).2).
  - repeat split.
  - reflexivity.
  - vm_compute. reflexivity.
Defined.

Lemma next_then_len_witness :
  let r := Result.__init__ 0 2 None (paging_crud rows5) in
  let st := (Result.__next__ (r, empty_world)).2 in
  Result.len st = (inr 5, st).
Proof.
  cbn zeta.
  apply (next_then_len (Result.__init__ 0 2 None (paging_crud rows5)) empty_world
           [("id", JNum 1)] [[("id", JNum 2)]] 5
           (fetch_page (Result.__init__ 0 2 None (paging_crud rows5)) empty_world).2).
  - reflexivity.
  - vm_compute. reflexivity.
  - lia.
Defined.

Lemma len_then_is_empty_witness :
  let r := Result.__init__ 0 2 None (paging_crud []) in
  let st := (Result.__len__ (r, empty_world)).2 in
  exists n : Z, Result.is_empty st = (inr (bool_decide (n = 0)), st).
Proof.
  cbn zeta.
  destruct (len_then_is_empty (Result.__init__ 0 2 None (paging_crud [])) empty_world
              (Some 0)
              (Result.__len__ (Result.__init__ 0 2 None (paging_crud []), empty_world)).2)
    as (n & _ & Hn).
  - vm_compute. reflexivity.
  - exists n. exact Hn.
Defined.

Lemma next_retry_same_page_witness :
  let r := Result.__init__ 4 2 None failing_crud in
  let st := (Result.__next__ (r, empty_world)).2 in
  exists (q : gmap string string) ks,
    trace (Result.__next__ st).2.2 =
      trace (fetch_page r empty_world).2 ++
      EvGet "/projects" (Some q) :: (EvConstruct <$> ks) /\
    q !! "offset" = Some "4" /\ q !! "limit" = Some "2".
Proof.
  cbn zeta.
  destruct (next_retry_same_page (Result.__init__ 4 2 None failing_crud) empty_world
              (ClientError 500)
              (fetch_page (Result.__init__ 4 2 None failing_crud) empty_world).2)
    as (q & ks & Ht & Ho & Hl).
  - reflexivity.
  - vm_compute. reflexivity.
  - exists q, ks. split; [exact Ht|]. split; [exact Ho | exact Hl].
Defined.

Lemma exhaust_limit_zero_witness :
  exists w',
    Result.exhaust 1 [] (Result.__init__ 0 0 None (paging_crud rows5), empty_world) =
    Some (inr [], (mkResult [] 0 0 (Some 5) None (paging_crud rows5), w')).
Proof.
  destruct (exhaust_limit_zero rows5 rows5 keep_fields "/projects" rows5_construct
              None 0 empty_world 1) as (w' & Hex & _).
  - lia.
  - exists w'. exact Hex.
Defined.

Lemma exhaust_resumes_witness :
  exists st,
    Result.exhaust 5 [] (mkResult [[("id", JNum 2)]] 2 2 (Some 5) None (paging_crud rows5),
                         empty_world) =
    Some (inr [[("id", JNum 2)]; [("id", JNum 3)]; [("id", JNum 4)]; [("id", JNum 5)]], st).
Proof.
  destruct (exhaust_resumes rows5 rows5 keep_fields "/projects" rows5_construct None
              2 ltac:(lia) [[("id", JNum 2)]] 2 (Some 5) empty_world 5)
    as (r' & w' & Hex & _).
  - lia.
  - vm_compute. lia.
  - exists (r', w'). exact Hex.
Defined.

Lemma exhaust_twice_witness :
  exists st1 st2,
    Result.exhaust 6 [] (Result.__init__ 0 2 None (paging_crud rows5), empty_world) =
      Some (inr rows5, st1) /\
    Result.exhaust 6 [] (Result.__iter__ st1.1, st1.2) = Some (inr [], st2).
Proof.
  destruct (exhaust_twice rows5 rows5 keep_fields "/projects" rows5_construct None
              2 ltac:(lia) empty_world 6 6) as (st1 & st2 & H1 & H2 & _).
  - cbn. lia.
  - lia.
  - exists st1, st2. split; [exact H1 | exact H2].
Defined.

Lemma len_then_exhaust_witness :
  exists st1 st2,
    Result.len (Result.__init__ 0 2 None (paging_crud rows5), empty_world) = (inr 5, st1) /\
    Result.exhaust 6 [] st1 = Some (inr rows5, st2).
Proof.
  destruct (len_then_exhaust rows5 rows5 keep_fields "/projects" rows5_construct None
              2 ltac:(lia) empty_world 6) as (st1 & st2 & H1 & _ & _ & H2).
  - cbn. lia.
  - cbn. lia.
  - exists st1, st2. split; [exact H1 | exact H2].
Defined.

(** ** Reusing one dictionary for several calls *)

Section shared_params.
Context {S T : Type}.
Implicit Types (self : CRUDClient S T) (w : world S).



End shared_params.
